(** * The Streamlit research-agent script (labs/day-5/4-streamit.py)

    The script is re-executed from its first line on every user interaction.
    Three stores outlive one execution: [st.session_state] (the transcript),
    the [st.cache_resource] store (the agent executor) and [os.environ].
    One execution is modelled as a small-step machine over the script's
    program points; a session is a sequence of executions over the stores. *)

From stdpp Require Import base strings list gmap.

Local Open Scope string_scope.

(** ** Python values *)

(** Truth value of an optional text: [None] and the empty text are falsy. *)
Definition truthy (v : option string) : bool :=
  match v with
  | None => false
  | Some "" => false
  | Some _ => true
  end.

(** A text [os.environ] accepts as a value: one without a NUL byte. *)
Fixpoint storable (s : string) : bool :=
  match s with
  | EmptyString => true
  | String c rest => negb (Ascii.eqb c Ascii.zero) && storable rest
  end.

(** How a call into a library ends.  [Raises e] is an instance of Python's
    [Exception] class whose [str] is [e]: the class both [except] clauses of
    the script name.  [Exits] is an exception outside that class: a
    system-exiting one ([SystemExit], [KeyboardInterrupt]). *)
Inductive outcome (A : Type) : Type :=
| Returns (a : A)
| Raises (e : string)
| Exits.
Arguments Returns {A} a.
Arguments Raises {A} e.
Arguments Exits {A}.

(** ** Data model *)

Inductive role : Type := user | assistant.

Record message : Type := Message { msg_role : role; msg_content : string }.

#[global] Instance role_eq_dec : EqDecision role.
Proof. solve_decision. Defined.

#[global] Instance message_eq_dec : EqDecision message.
Proof. solve_decision. Defined.

(** ** Agent setup (lines 52-113) *)

Record OpenAI : Type := { temperature : nat }.

(** What a tool does for the reasoning loop. *)
Inductive capability : Type := WebSearch | MathEvaluation.

Record Tool : Type :=
  { tool_name : string; tool_does : capability; tool_uses_llm : bool }.

Record ReactAgent : Type :=
  { agent_llm : OpenAI; agent_tools : list Tool; agent_prompt : string }.

Record AgentExecutor : Type :=
  { agent : ReactAgent;
    tools : list Tool;
    verbose : bool;
    handle_parsing_errors : bool;
    max_iterations : nat }.

Definition template : string :=
"
    Answer the following questions as best you can. You have access to the following tools:

    {tools}

    Use the following format:

    Question: the input question you must answer
    Thought: you should always think about what to do
    Action: the action to take, should be one of [{tool_names}]
    Action Input: the input to the action
    Observation: the result of the action
    ... (this Thought/Action/Action Input/Observation can repeat N times)
    Thought: I now know the final answer
    Final Answer: the final answer to the original input question

    Begin!

    Question: {input}
    Thought:{agent_scratchpad}
    ".

(** Modelled from the spec: the table of the tool loader, which belongs to
    the agent library and is not among the sources.  Of its entries the two
    the script asks for are given: the web search behind the key ddg-search
    and the math helper behind the key llm-math (spec 4.2), under the names
    the library gives the tools.  Keys the script does not use are left out
    of the table. *)
Definition load_tool (key : string) : option Tool :=
  if String.eqb key "ddg-search" then
    Some {| tool_name := "duckduckgo_search";
            tool_does := WebSearch;
            tool_uses_llm := false |}
  else if String.eqb key "llm-math" then
    Some {| tool_name := "Calculator";
            tool_does := MathEvaluation;
            tool_uses_llm := true |}
  else None.

(** [load_tools(names, llm=llm)]: one tool per key, in the order of the keys;
    a key outside the table and a tool that needs a model when none is
    passed are refused with a ValueError. *)
Fixpoint load_tools (names : list string) (llm : option OpenAI)
  : outcome (list Tool) :=
  match names with
  | [] => Returns []
  | key :: rest =>
      match load_tool key with
      | None => Raises ("Got unknown tool " +:+ key)
      | Some t =>
          if tool_uses_llm t && negb (bool_decide (is_Some llm)) then
            Raises ("Tool " +:+ key +:+ " requires an LLM to be provided")
          else
            match load_tools rest llm with
            | Returns ts => Returns (t :: ts)
            | Raises e => Raises e
            | Exits => Exits
            end
      end
  end.

(** The body of [setup_agent].  [libs] says whether the library constructors
    it calls ([OpenAI], [create_react_agent], [AgentExecutor]) and the
    imports behind [load_tools] go through. *)
Definition setup_agent_body (libs : outcome unit) : outcome AgentExecutor :=
  match libs with
  | Returns _ =>
      let llm := {| temperature := 0 |} in
      match load_tools ["ddg-search"; "llm-math"] (Some llm) with
      | Returns tools =>
          let prompt := template in
          let agent :=
            {| agent_llm := llm; agent_tools := tools; agent_prompt := prompt |} in
          Returns {| agent := agent;
                     tools := tools;
                     verbose := true;
                     handle_parsing_errors := true;
                     max_iterations := 5 |}
      | Raises e => Raises e
      | Exits => Exits
      end
  | Raises e => Raises e
  | Exits => Exits
  end.

(** ** Stores and screen *)

Inductive element : Type :=
| PageConfig (page_title : string)
| Style
| Title (s : string)
| Markdown (s : string)
| Header (s : string)
| TextInput (label : string)
| ChatInput (label : string)
| Info (s : string)
| Error (s : string)
| ChatMessage (r : role)
| Spinner (s : string).

(** Calls that leave the script, in the order they happen.  [Invoked] keeps
    the transcript as it stands when the call is made. *)
Inductive call : Type :=
| Constructed (a : AgentExecutor)
| Invoked (a : AgentExecutor) (input : string) (transcript : list message).

Record world : Type := World
  { session_messages : option (list message);   (* st.session_state.messages *)
    resource_cache : option AgentExecutor;      (* st.cache_resource, setup_agent *)
    environ : gmap string string;               (* os.environ *)
    screen : list element;                      (* what this execution rendered *)
    calls : list call }.

Definition messages (w : world) : list message :=
  default [] (session_messages w).

Definition render (es : list element) (w : world) : world :=
  World (session_messages w) (resource_cache w) (environ w)
        (screen w ++ es) (calls w).

Definition clear_screen (w : world) : world :=
  World (session_messages w) (resource_cache w) (environ w) [] (calls w).

Definition set_messages (ms : list message) (w : world) : world :=
  World (Some ms) (resource_cache w) (environ w) (screen w) (calls w).

Definition set_environ (k v : string) (w : world) : world :=
  World (session_messages w) (resource_cache w) (<[k:=v]> (environ w))
        (screen w) (calls w).

Definition cache_agent (a : AgentExecutor) (w : world) : world :=
  World (session_messages w) (Some a) (environ w) (screen w) (calls w).

Definition record_call (c : call) (w : world) : world :=
  World (session_messages w) (resource_cache w) (environ w) (screen w)
        (calls w ++ [c]).

(** A fresh process: nothing stored yet. *)
Definition fresh : world := World None None ∅ [] [].

(** [setup_agent] under [@st.cache_resource]: the body runs only while the
    store is empty, and only a returned executor is stored. *)
Definition setup_agent (libs : outcome unit) (w : world)
  : outcome AgentExecutor * world :=
  match resource_cache w with
  | Some a => (Returns a, w)
  | None =>
      match setup_agent_body libs with
      | Returns a => (Returns a, record_call (Constructed a) (cache_agent a w))
      | Raises e => (Raises e, w)
      | Exits => (Exits, w)
      end
  end.

(** ** Inputs of one execution *)

Record run_input : Type :=
  { openai_api_key : option string;      (* value of the sidebar text input *)
    chat_input : option string;          (* value of st.chat_input *)
    libs : outcome unit;                 (* library constructors in setup_agent *)
    invoke : AgentExecutor -> string -> outcome (gmap string string) }.

(** ** Program points *)

Inductive stop_site : Type := KeyGate | InitFailure.

Inductive pc : Type :=
| AtHeader                                            (* 11-136 *)
| AtKeyGate                                           (* 139-141 *)
| AtSetEnv                                            (* 144 *)
| AtSetup                                             (* 147-151 *)
| AtInitHistory (a : AgentExecutor)                   (* 156-157 *)
| AtReplay (a : AgentExecutor)                        (* 160-162 *)
| AtChatInput (a : AgentExecutor)                     (* 165 *)
| AtAppendUser (a : AgentExecutor) (prompt : string)  (* 167 *)
| AtRenderUser (a : AgentExecutor) (prompt : string)  (* 168-169 *)
| AtOpenAssistant (a : AgentExecutor) (prompt : string) (* 172-174 *)
| AtInvoke (a : AgentExecutor) (prompt : string)      (* 177 *)
| AtExtract (response : gmap string string)           (* 179 *)
| AtRenderAnswer (final_answer : string)              (* 180 *)
| AtAppendAnswer (final_answer : string)              (* 182 *)
| AtFormatError (e : string)                          (* 184-185 *)
| AtRenderError (error_message : string)              (* 186 *)
| AtAppendError (error_message : string)              (* 187 *)
| Finished                                            (* end of script *)
| Stopped (s : stop_site)                             (* st.stop() *)
| Propagated.                                         (* uncaught, script dies *)

Definition config : Type := pc * world.

Definition terminal (l : pc) : bool :=
  match l with
  | Finished | Stopped _ | Propagated => true
  | _ => false
  end.

Definition intro_text : string :=
"
Welcome! This is a simple AI agent that can browse the web to answer your questions.
It uses **LangChain** to orchestrate its actions and **DuckDuckGo Search** as its tool for finding information.

To get started, you'll need an **OpenAI API key**.
".

Definition header : list element :=
  [ PageConfig "Agentic AI Web Researcher";
    Style;
    Title "🤖 Agentic AI Web Researcher";
    Markdown intro_text;
    Header "Configuration";
    TextInput "Enter your OpenAI API Key";
    Markdown "[Get an OpenAI API key](https://platform.openai.com/account/api-keys)" ].

Definition fallback_answer : string := "Sorry, I encountered an error.".

Definition error_text (e : string) : string :=
  "An error occurred: " +:+ e +:+ ". Please try again.".

Definition init_error_text (e : string) : string :=
  "Failed to initialize the agent. Please check your API key and dependencies. Error: " +:+ e.

(** What [str] gives for the AttributeError raised when the transcript is
    touched before line 157 created it. *)
Definition missing_messages : string :=
  "st.session_state has no attribute messages".

Definition show (m : message) : list element :=
  [ChatMessage (msg_role m); Markdown (msg_content m)].

(** ** One statement of the script *)

Definition step (i : run_input) (c : config) : config :=
  let '(l, w) := c in
  match l with
  | AtHeader => (AtKeyGate, render header (clear_screen w))
  | AtKeyGate =>
      if truthy (openai_api_key i) then (AtSetEnv, w)
      else (Stopped KeyGate,
            render [Info "Please add your OpenAI API key in the sidebar to continue."] w)
  | AtSetEnv =>
      (* os.environ takes any text without a NUL byte; the refusal of a key
         with one is not followed here, and the statements that say what a
         key leads to are made for keys that are [storable] *)
      match openai_api_key i with
      | Some k => (AtSetup, set_environ "OPENAI_API_KEY" k w)
      | None => (Propagated, w)
      end
  | AtSetup =>
      let '(r, w) := setup_agent (libs i) w in
      match r with
      | Returns a => (AtInitHistory a, w)
      | Raises e => (Stopped InitFailure, render [Error (init_error_text e)] w)
      | Exits => (Propagated, w)
      end
  | AtInitHistory a =>
      match session_messages w with
      | None => (AtReplay a, set_messages [] w)
      | Some _ => (AtReplay a, w)
      end
  | AtReplay a =>
      match session_messages w with
      | Some ms => (AtChatInput a, render (flat_map show ms) w)
      | None => (Propagated, w)
      end
  | AtChatInput a =>
      let w := render [ChatInput "Ask me anything..."] w in
      match chat_input i with
      | Some prompt =>
          if truthy (Some prompt) then (AtAppendUser a prompt, w) else (Finished, w)
      | None => (Finished, w)
      end
  | AtAppendUser a prompt =>
      match session_messages w with
      | Some ms => (AtRenderUser a prompt, set_messages (ms ++ [Message user prompt]) w)
      | None => (Propagated, w)
      end
  | AtRenderUser a prompt =>
      (AtOpenAssistant a prompt, render (show (Message user prompt)) w)
  | AtOpenAssistant a prompt =>
      (AtInvoke a prompt, render [ChatMessage assistant; Spinner "Thinking..."] w)
  | AtInvoke a prompt =>
      let w := record_call (Invoked a prompt (messages w)) w in
      match invoke i a prompt with
      | Returns response => (AtExtract response, w)
      | Raises e => (AtFormatError e, w)
      | Exits => (Propagated, w)
      end
  | AtExtract response =>
      (AtRenderAnswer (default fallback_answer (response !! "output")), w)
  | AtRenderAnswer final_answer =>
      (AtAppendAnswer final_answer, render [Markdown final_answer] w)
  | AtAppendAnswer final_answer =>
      match session_messages w with
      | Some ms => (Finished, set_messages (ms ++ [Message assistant final_answer]) w)
      | None => (AtFormatError missing_messages, w)
      end
  | AtFormatError e => (AtRenderError (error_text e), w)
  | AtRenderError error_message =>
      (AtAppendError error_message, render [Error error_message] w)
  | AtAppendError error_message =>
      match session_messages w with
      | Some ms => (Finished, set_messages (ms ++ [Message assistant error_message]) w)
      | None => (Propagated, w)
      end
  | Finished | Stopped _ | Propagated => c
  end.

(** Statements left before the script certainly ended. *)
Definition rank (l : pc) : nat :=
  match l with
  | AtHeader => 17
  | AtKeyGate => 16
  | AtSetEnv => 15
  | AtSetup => 14
  | AtInitHistory _ => 13
  | AtReplay _ => 12
  | AtChatInput _ => 11
  | AtAppendUser _ _ => 10
  | AtRenderUser _ _ => 9
  | AtOpenAssistant _ _ => 8
  | AtInvoke _ _ => 7
  | AtExtract _ => 6
  | AtRenderAnswer _ => 5
  | AtAppendAnswer _ => 4
  | AtFormatError _ => 3
  | AtRenderError _ => 2
  | AtAppendError _ => 1
  | Finished | Stopped _ | Propagated => 0
  end.

Fixpoint exec (fuel : nat) (i : run_input) (c : config) : config :=
  match fuel with
  | 0 => c
  | S fuel => exec fuel i (step i c)
  end.

(** One execution of the script, from its first line. *)
Definition run (i : run_input) (w : world) : config :=
  exec (rank AtHeader) i (AtHeader, w).

(** The chat handler alone (lines 165-187), entered with the agent [a]. *)
Definition handler (i : run_input) (a : AgentExecutor) (w : world) : config :=
  exec (rank (AtChatInput a)) i (AtChatInput a, w).

(** A session: the script executed once per interaction, stores kept. *)
Fixpoint session (inputs : list run_input) (w : world) : world :=
  match inputs with
  | [] => w
  | i :: rest => session rest (run i w).2
  end.

(** The three states of the chat loop, read off the program point. *)
Inductive ui_state : Type := AwaitingCredential | Ready | Processing.

Definition ui_state_of (l : pc) : option ui_state :=
  match l with
  | AtHeader | AtKeyGate | Stopped _ => Some AwaitingCredential
  | AtSetEnv | AtSetup | AtInitHistory _ | AtReplay _ | AtChatInput _ | Finished =>
      Some Ready
  | AtAppendUser _ _ | AtRenderUser _ _ | AtOpenAssistant _ _ | AtInvoke _ _
  | AtExtract _ | AtRenderAnswer _ | AtAppendAnswer _
  | AtFormatError _ | AtRenderError _ | AtAppendError _ => Some Processing
  | Propagated => None
  end.

(** ** Vocabulary of the statements *)

(** What the handler adds to the transcript after the user's message. *)
Definition reply (r : outcome (gmap string string)) : list message :=
  match r with
  | Returns response =>
      [Message assistant (default fallback_answer (response !! "output"))]
  | Raises e => [Message assistant (error_text e)]
  | Exits => []
  end.

(** [n] exchanges: user, assistant, user, assistant, ... *)
Fixpoint alternating (n : nat) : list role :=
  match n with
  | 0 => []
  | S n => user :: assistant :: alternating n
  end.

Definition is_construction (c : call) : bool :=
  match c with Constructed _ => true | Invoked _ _ _ => false end.

Definition is_invocation (c : call) : bool :=
  match c with Constructed _ => false | Invoked _ _ _ => true end.

Definition executor_of (c : call) : AgentExecutor :=
  match c with Constructed a => a | Invoked a _ _ => a end.

Definition finished (l : pc) : bool :=
  match l with Finished => true | _ => false end.

Definition propagated (l : pc) : bool :=
  match l with Propagated => true | _ => false end.

(** The program point each execution of a session ends at. *)
Fixpoint session_ends (inputs : list run_input) (w : world) : list pc :=
  match inputs with
  | [] => []
  | i :: rest => (run i w).1 :: session_ends rest (run i w).2
  end.

(** Executions of a session in which a submission was handled to the end. *)
Fixpoint submissions (inputs : list run_input) (w : world) : nat :=
  match inputs with
  | [] => 0
  | i :: rest =>
      (if truthy (chat_input i) && finished (run i w).1 then 1 else 0)
      + submissions rest (run i w).2
  end.

Local Open Scope list_scope.

(** Between line 167 and line 177 the transcript ends with the submission. *)
Definition pending (i : run_input) (c : config) : Prop :=
  match c.1 with
  | AtAppendUser _ p => chat_input i = Some p /\ truthy (Some p) = true
  | AtRenderUser _ p | AtOpenAssistant _ p | AtInvoke _ p =>
      chat_input i = Some p /\ truthy (Some p) = true /\
      last (messages c.2) = Some (Message user p)
  | _ => True
  end.

(** How often [setup_agent]'s body returned an executor. *)
Fixpoint constructions (cs : list call) : nat :=
  match cs with
  | [] => 0
  | c :: cs => (if is_construction c then 1 else 0) + constructions cs
  end.

(** [a] is what the body of [setup_agent] returns. *)
Definition built (a : AgentExecutor) : Prop :=
  setup_agent_body (Returns ()) = Returns a.

(** What holds of the stores between any two statements of any execution:
    the stored executor is the one the body builds, the body returned as
    often as the store is filled, and every call so far is on the stored
    executor; past line 148 the script's [agent_executor] is that one too. *)
Definition coherent (w : world) : Prop :=
  match resource_cache w with
  | Some a => built a /\ constructions (calls w) = 1
  | None => constructions (calls w) = 0
  end /\
  Forall (fun c => resource_cache w = Some (executor_of c)) (calls w).

Definition holding (c : config) : Prop :=
  coherent c.2 /\
  match c.1 with
  | AtInitHistory a | AtReplay a | AtChatInput a
  | AtAppendUser a _ | AtRenderUser a _ | AtOpenAssistant a _ | AtInvoke a _ =>
      resource_cache c.2 = Some a
  | _ => True
  end.

(** Program points an execution visits when the key gate stops it. *)
Definition before_setup (l : pc) : bool :=
  match l with
  | AtHeader | AtKeyGate | Stopped KeyGate => true
  | _ => false
  end.

(** ** The reasoning loop behind [invoke] *)

Module ReasoningLoop.

(** Modelled from the spec: the reasoning loop of the executor (spec 4.1,
    4.2 and 7).  The loop itself lives in the agent library, of which the
    sources hold only the construction call with its settings. *)
Inductive suggestion : Type :=
| FinalAnswer (text : string)
| Action (name input : string)
| Unparsable (raw : string).

Inductive loop_error : Type :=
| UnknownToolError (name : string)
| ParseError (raw : string).

Inductive tool_result : Type :=
| Observed (text : string)
| NetworkError (detail : string)
| EvaluationError (detail : string).

Record tool : Type :=
  { name : string; description : string; invocation : string -> tool_result }.

Record configuration : Type :=
  { iteration_cap : nat; parsing_error_tolerance : bool; verbosity : bool }.

(** The settings the script passes at lines 105-111. *)
Definition configuration_of (a : AgentExecutor) : configuration :=
  {| iteration_cap := max_iterations a;
     parsing_error_tolerance := handle_parsing_errors a;
     verbosity := verbose a |}.

Definition scratchpad : Type := list (suggestion * string).

(** A tool failure comes back as an observation text. *)
Definition observation (r : tool_result) : string :=
  match r with
  | Observed text => text
  | NetworkError detail => "NetworkError: " +:+ detail
  | EvaluationError detail => "EvaluationError: " +:+ detail
  end.

Definition lookup_tool (registry : list tool) (n : string) : option tool :=
  List.find (fun t => String.eqb (name t) n) registry.

Section Loop.
Variable model : string -> scratchpad -> suggestion.
Variable registry : list tool.
Variable corrective : suggestion -> string.
Variable best_effort : scratchpad -> string.
Variable cfg : configuration.
Variable question : string.

(** [rounds budget pad]: the result and the suggestions of the rounds
    made, one model query each, with [budget] rounds left. *)
Fixpoint rounds (budget : nat) (pad : scratchpad)
  : (loop_error + string) * list suggestion :=
  match budget with
  | 0 => (inr (best_effort pad), [])
  | S budget =>
      let s := model question pad in
      let continue (obs : string) :=
        let '(r, made) := rounds budget (pad ++ [(s, obs)]) in (r, s :: made) in
      match s with
      | FinalAnswer text => (inr text, [s])
      | Action n input =>
          match lookup_tool registry n with
          | Some t => continue (observation (invocation t input))
          | None =>
              if parsing_error_tolerance cfg then continue (corrective s)
              else (inl (UnknownToolError n), [s])
          end
      | Unparsable raw =>
          if parsing_error_tolerance cfg then continue (corrective s)
          else (inl (ParseError raw), [s])
      end
  end.

Definition answer : (loop_error + string) * list suggestion :=
  rounds (iteration_cap cfg) [].

Definition is_dispatch (s : suggestion) : bool :=
  match s with Action _ _ => true | _ => false end.

Definition dispatches (made : list suggestion) : nat :=
  length (List.filter is_dispatch made).
End Loop.

End ReasoningLoop.

(** Inputs used to exercise the loop: a model that never settles. *)
Definition search_tool : ReasoningLoop.tool :=
  {| ReasoningLoop.name := "ddg-search";
     ReasoningLoop.description := "web search";
     ReasoningLoop.invocation := fun q => ReasoningLoop.Observed ("results for " +:+ q) |}.

Definition restless_model : string -> ReasoningLoop.scratchpad -> ReasoningLoop.suggestion :=
  fun q _ => ReasoningLoop.Action "ddg-search" q.

Definition retry_text : ReasoningLoop.suggestion -> string :=
  fun _ => "Invalid or incomplete response".

Definition stopped_text : ReasoningLoop.scratchpad -> string :=
  fun _ => "Agent stopped due to iteration limit or time limit.".

(** ** Inputs used to exercise the statements *)

Definition answering (text : string) : AgentExecutor -> string -> outcome (gmap string string) :=
  fun _ _ => Returns {["output" := text]}.

Definition failing (e : string) : AgentExecutor -> string -> outcome (gmap string string) :=
  fun _ _ => Raises e.

Definition ask (question : string) (exe : AgentExecutor -> string -> outcome (gmap string string))
  : run_input :=
  {| openai_api_key := Some "sk-test";
     chat_input := Some question;
     libs := Returns ();
     invoke := exe |}.

Definition no_key : run_input :=
  {| openai_api_key := Some "";
     chat_input := Some "hello";
     libs := Returns ();
     invoke := answering "hi" |}.

(** The two tools of line 68. *)
Definition registry : list Tool :=
  [ {| tool_name := "duckduckgo_search"; tool_does := WebSearch; tool_uses_llm := false |};
    {| tool_name := "Calculator"; tool_does := MathEvaluation; tool_uses_llm := true |} ].

(** The executor of lines 62-111, written out. *)
Definition the_executor : AgentExecutor :=
  {| agent := {| agent_llm := {| temperature := 0 |};
                 agent_tools := registry;
                 agent_prompt := template |};
     tools := registry;
     verbose := true;
     handle_parsing_errors := true;
     max_iterations := 5 |}.

Definition two_submissions : list run_input :=
  [ask "2+2" (answering "4"); ask "weather" (failing "timeout")].

Definition interrupted : AgentExecutor -> string -> outcome (gmap string string) :=
  fun _ _ => Exits.

(** ** Sessions described by their inputs *)

(** The key of [i], if any, is one the environment accepts. *)
Definition key_storable (i : run_input) : Prop :=
  forall k, openai_api_key i = Some k -> storable k = true.

(** An execution that gets as far as the chat input and is not cut short:
    a key that passes the gate and that the environment accepts, library
    constructors that go through, an executor that returns or raises. *)
Definition served (i : run_input) : Prop :=
  (exists k, openai_api_key i = Some k /\ truthy (Some k) = true /\ storable k = true) /\
  libs i = Returns () /\
  (forall a p, invoke i a p <> Exits).

(** The submissions made in a session: its non-empty chat inputs. *)
Definition asked (inputs : list run_input) : nat :=
  length (List.filter (fun i => truthy (chat_input i)) inputs).

(** An exception of whatever class raised by the executor call of a handled
    submission is caught: the execution reaches the end of the script and
    the transcript gains the user's message and one assistant message. *)
Definition every_exception_is_caught : Prop :=
  forall i w a p,
    truthy (openai_api_key i) = true ->
    (setup_agent (libs i) w).1 = Returns a ->
    chat_input i = Some p -> truthy (Some p) = true ->
    (forall response, invoke i a p <> Returns response) ->
    (run i w).1 = Finished /\
    exists text,
      messages (run i w).2 = messages w ++ [Message user p; Message assistant text].

(** ** Summaries of the script's stretches *)

(** The stores after lines 11-144, the key [k] being set. *)
Definition booted (k : string) (w : world) : world :=
  set_environ "OPENAI_API_KEY" k (render header (clear_screen w)).

(** The stores on reaching the chat input of line 165 with the executor [a]:
    the key in the environment, [a] stored (and logged as built if the store
    was empty), the transcript present, the history drawn under the header. *)
Definition entered (k : string) (a : AgentExecutor) (w : world) : world :=
  World (Some (messages w))
        (Some a)
        (<["OPENAI_API_KEY" := k]> (environ w))
        (header ++ flat_map show (messages w))
        (calls w ++ match resource_cache w with
                    | Some _ => []
                    | None => [Constructed a]
                    end).

(** What the handler draws for the executor's outcome. *)
Definition shown (r : outcome (gmap string string)) : list element :=
  match r with
  | Returns response => [Markdown (default fallback_answer (response !! "output"))]
  | Raises e => [Error (error_text e)]
  | Exits => []
  end.

(** The stores after the handler took the submission [p] and the executor
    call ended as [r]. *)
Definition exchanged (a : AgentExecutor) (p : string)
    (r : outcome (gmap string string)) (w : world) : world :=
  World (Some (messages w ++ Message user p :: reply r))
        (resource_cache w)
        (environ w)
        (screen w ++ ChatInput "Ask me anything..." :: show (Message user p)
                  ++ ChatMessage assistant :: Spinner "Thinking..." :: shown r)
        (calls w ++ [Invoked a p (messages w ++ [Message user p])]).

(** Where an execution ends, read off its inputs. *)
Definition ending (i : run_input) (w : world) : pc :=
  if truthy (openai_api_key i) then
    match (setup_agent (libs i) w).1 with
    | Returns a =>
        match chat_input i with
        | Some p =>
            if truthy (Some p) then
              match invoke i a p with
              | Exits => Propagated
              | _ => Finished
              end
            else Finished
        | None => Finished
        end
    | Raises _ => Stopped InitFailure
    | Exits => Propagated
    end
  else Stopped KeyGate.

(** Two inputs that differ at most in how the library constructors fare. *)
Definition same_request (i j : run_input) : Prop :=
  openai_api_key i = openai_api_key j /\
  chat_input i = chat_input j /\
  (forall a p, invoke i a p = invoke j a p).


Definition broken_libs : run_input :=
  {| openai_api_key := Some "sk-test";
     chat_input := None;
     libs := Raises "No module named duckduckgo_search";
     invoke := answering "hi" |}.

Definition idle : run_input :=
  {| openai_api_key := Some "sk-test";
     chat_input := None;
     libs := Returns ();
     invoke := answering "hi" |}.

Definition other_key : run_input :=
  {| openai_api_key := Some "sk-other";
     chat_input := Some "2+2";
     libs := Raises "not consulted";
     invoke := answering "4" |}.

(** * Properties *)

(** ** Executions end *)

Lemma step_rank i l w :
  terminal l = false -> rank (step i (l, w)).1 < rank l.
Proof.
  destruct l; cbn; try discriminate; intros _;
    repeat case_match; cbn; lia.
Qed.

Lemma step_terminal i l w : terminal l = true -> step i (l, w) = (l, w).
Proof. destruct l; cbn; congruence. Qed.

Lemma exec_S n i c : exec (S n) i c = step i (exec n i c).
Proof. revert c; induction n as [|n IH]; intros c; [done|]. cbn [exec] in *. by rewrite IH. Qed.

Lemma exec_terminal n i c : rank c.1 <= n -> terminal (exec n i c).1 = true.
Proof.
  revert c; induction n as [|n IH]; intros [l w] Hr; cbn [exec fst] in *.
  - destruct l; cbn in *; done || lia.
  - apply IH. destruct (terminal l) eqn:Ht.
    + rewrite step_terminal by done. destruct l; try discriminate; cbn; lia.
    + pose proof (step_rank i l w Ht). lia.
Qed.

Lemma run_terminal i w : terminal (run i w).1 = true.
Proof. apply exec_terminal. done. Qed.

(** ** Case analysis of the script *)

Ltac world_simpl :=
  cbn [fst snd messages session_messages resource_cache environ screen calls
       render clear_screen set_messages set_environ cache_agent record_call
       default from_option id] in *.

Ltac red_step :=
  cbn [step fst snd] in *; unfold setup_agent, messages in *; world_simpl.

Ltac step_cases :=
  repeat first [progress red_step | case_match; simplify_eq].

Lemma truthy_Some v : truthy v = true -> exists k, v = Some k.
Proof. destruct v; [eauto | discriminate]. Qed.

(** ** The transcript only grows *)

Lemma step_messages i c :
  messages (step i c).2 = messages c.2 \/
  exists m, messages (step i c).2 = messages c.2 ++ [m].
Proof.
  destruct c as [l w].
  destruct l; step_cases; eauto;
    match goal with H : session_messages _ = _ |- _ => rewrite H end;
    cbn [default from_option id app]; eauto.
Qed.

Lemma step_prefix i c : messages c.2 `prefix_of` messages (step i c).2.
Proof.
  destruct (step_messages i c) as [-> | [m ->]]; [done|].
  by apply prefix_app_r.
Qed.

Lemma exec_prefix n i c : messages c.2 `prefix_of` messages (exec n i c).2.
Proof.
  induction n as [|n IH]; [done|].
  rewrite exec_S. etrans; [apply IH | apply step_prefix].
Qed.

Lemma run_prefix i w : messages w `prefix_of` messages (run i w).2.
Proof. apply (exec_prefix _ i (AtHeader, w)). Qed.

(** ** The user's message is stored before the executor is called *)

Lemma step_pending i c : pending i c -> pending i (step i c).
Proof.
  destruct c as [l w]. unfold pending.
  destruct l; intros H; step_cases; simplify_eq; try done.
  destruct H. split_and!; try done. apply last_snoc.
Qed.

Lemma exec_pending n i w : pending i (exec n i (AtHeader, w)).
Proof.
  induction n as [|n IH]; [done|].
  rewrite exec_S. by apply step_pending.
Qed.

(** ** What one execution does, case by case *)

Lemma run_no_key i w :
  truthy (openai_api_key i) = false ->
  run i w =
    (Stopped KeyGate,
     render [Info "Please add your OpenAI API key in the sidebar to continue."]
       (render header (clear_screen w))).
Proof. intros Hk. unfold run; cbn [exec rank]. red_step. rewrite Hk. exact eq_refl. Qed.

Lemma run_setup_raises i w e :
  truthy (openai_api_key i) = true ->
  (setup_agent (libs i) w).1 = Raises e ->
  (run i w).1 = Stopped InitFailure /\
  session_messages (run i w).2 = session_messages w /\
  resource_cache (run i w).2 = resource_cache w /\
  calls (run i w).2 = calls w.
Proof.
  intros Hk Hs. destruct (truthy_Some _ Hk) as [k Hkey].
  unfold run; cbn [exec rank]. red_step. rewrite Hk. red_step. rewrite Hkey.
  red_step. destruct (resource_cache w) eqn:Hc; red_step; simplify_eq.
  destruct (setup_agent_body (libs i)); red_step; simplify_eq.
  by split_and!.
Qed.

Lemma run_setup_exits i w :
  truthy (openai_api_key i) = true ->
  (setup_agent (libs i) w).1 = Exits ->
  (run i w).1 = Propagated /\
  session_messages (run i w).2 = session_messages w /\
  resource_cache (run i w).2 = resource_cache w /\
  calls (run i w).2 = calls w.
Proof.
  intros Hk Hs. destruct (truthy_Some _ Hk) as [k Hkey].
  unfold run; cbn [exec rank]. red_step. rewrite Hk. red_step. rewrite Hkey.
  red_step. destruct (resource_cache w) eqn:Hc; red_step; simplify_eq.
  destruct (setup_agent_body (libs i)); red_step; simplify_eq.
  by split_and!.
Qed.

Lemma run_idle i w a :
  truthy (openai_api_key i) = true ->
  (setup_agent (libs i) w).1 = Returns a ->
  truthy (chat_input i) = false ->
  (run i w).1 = Finished /\
  session_messages (run i w).2 = Some (messages w) /\
  resource_cache (run i w).2 = Some a /\
  calls (run i w).2 = calls (setup_agent (libs i) w).2.
Proof.
  intros Hk Hs Hc. destruct (truthy_Some _ Hk) as [k Hkey].
  unfold run; cbn [exec rank]. red_step. rewrite Hk. red_step. rewrite Hkey.
  red_step. destruct (resource_cache w) eqn:Hcache; red_step; simplify_eq.
  all: step_cases; by split_and!.
Qed.

Lemma run_submit i w a p :
  truthy (openai_api_key i) = true ->
  (setup_agent (libs i) w).1 = Returns a ->
  chat_input i = Some p -> truthy (Some p) = true ->
  (run i w).1 = (match invoke i a p with Exits => Propagated | _ => Finished end) /\
  session_messages (run i w).2 =
    Some (messages w ++ Message user p :: reply (invoke i a p)) /\
  resource_cache (run i w).2 = Some a /\
  calls (run i w).2 =
    calls (setup_agent (libs i) w).2 ++ [Invoked a p (messages w ++ [Message user p])].
Proof.
  intros Hk Hs Hc Hp. destruct (truthy_Some _ Hk) as [k Hkey].
  unfold run; cbn [exec rank]. red_step. rewrite Hk. red_step. rewrite Hkey.
  red_step. destruct (resource_cache w) eqn:Hcache; red_step; simplify_eq.
  all: step_cases; cbn [reply];
    rewrite <- ?app_assoc; by split_and!.
Qed.

Lemma exec_stays n i l w : terminal l = true -> exec n i (l, w) = (l, w).
Proof.
  intros Ht. induction n as [|n IH]; [exact eq_refl|].
  rewrite exec_S, IH. by apply step_terminal.
Qed.

Lemma handler_idle i a w :
  truthy (chat_input i) = false ->
  handler i a w = (Finished, render [ChatInput "Ask me anything..."] w).
Proof.
  intros Hc. unfold handler; cbn [exec rank]. red_step.
  destruct (chat_input i) as [p|]; [rewrite Hc|];
    repeat (progress red_step); exact eq_refl.
Qed.

Lemma run_unfold i w : run i w = exec (rank AtHeader) i (AtHeader, w).
Proof. unfold run. exact eq_refl. Qed.

(** From here on an execution is used through the lemmas above. *)
#[local] Opaque run.

(** ** Sessions, one execution at a time *)

Lemma session_cons i rest w : session (i :: rest) w = session rest (run i w).2.
Proof. unfold session at 1; fold session. exact eq_refl. Qed.

Lemma session_ends_cons i rest w :
  session_ends (i :: rest) w = (run i w).1 :: session_ends rest (run i w).2.
Proof. unfold session_ends at 1; fold session_ends. exact eq_refl. Qed.

Lemma submissions_cons i rest w :
  submissions (i :: rest) w =
    (if truthy (chat_input i) && finished (run i w).1 then 1 else 0)
    + submissions rest (run i w).2.
Proof. unfold submissions at 1; fold submissions. exact eq_refl. Qed.

Lemma session_prefix inputs w : messages w `prefix_of` messages (session inputs w).
Proof.
  revert w; induction inputs as [|i rest IH]; intros w; [done|].
  rewrite session_cons. etrans; [apply run_prefix | apply IH].
Qed.

(** ** The transcript is append-only *)

(** C5. Every statement of the script leaves the transcript as it is or adds
    one message at its end; hence the transcript before any stretch of an
    execution, and before any stretch of a session, is a prefix of the
    transcript after it: no message is edited or removed. *)
Theorem transcript_append_only :
  (forall i c,
      messages (step i c).2 = messages c.2 \/
      exists m, messages (step i c).2 = messages c.2 ++ [m]) /\
  (forall n i c, messages c.2 `prefix_of` messages (exec n i c).2) /\
  (forall i w, messages w `prefix_of` messages (run i w).2) /\
  (forall inputs w, messages w `prefix_of` messages (session inputs w)).
Proof.
  split; [apply step_messages|].
  split; [apply exec_prefix|].
  split; [apply run_prefix | apply session_prefix].
Qed.

(** ** The state of the transcript at the executor call *)

Lemma exec_to_invoke i w a p :
  truthy (openai_api_key i) = true ->
  (setup_agent (libs i) w).1 = Returns a ->
  chat_input i = Some p -> truthy (Some p) = true ->
  exists w',
    exec 10 i (AtHeader, w) = (AtInvoke a p, w') /\
    session_messages w' = Some (messages w ++ [Message user p]) /\
    calls w' = calls (setup_agent (libs i) w).2.
Proof.
  intros Hk Hs Hc Hp. destruct (truthy_Some _ Hk) as [k Hkey].
  cbn [exec]. red_step. rewrite Hk. red_step. rewrite Hkey.
  red_step. destruct (resource_cache w) eqn:Hcache; red_step; simplify_eq.
  all: step_cases; eexists; split_and!; try exact eq_refl.
Qed.

(** C4. When a non-empty submission reaches the executor call of line 177
    (ten statements into the execution), the transcript is the earlier
    transcript followed by the user's message, so its last element is that
    message, and the call is made with the transcript in that state; and at
    whatever moment an execution stands at the call, the transcript ends
    with the user-role message holding the submission. *)
Theorem user_message_stored_before_invoke i w a p :
  truthy (openai_api_key i) = true ->
  (setup_agent (libs i) w).1 = Returns a ->
  chat_input i = Some p -> truthy (Some p) = true ->
  (exists w',
      exec 10 i (AtHeader, w) = (AtInvoke a p, w') /\
      messages w' = messages w ++ [Message user p] /\
      last (messages w') = Some (Message user p) /\
      calls (step i (AtInvoke a p, w')).2 =
        calls w' ++ [Invoked a p (messages w ++ [Message user p])]) /\
  (forall n a' p',
      (exec n i (AtHeader, w)).1 = AtInvoke a' p' ->
      last (messages (exec n i (AtHeader, w)).2) = Some (Message user p')).
Proof.
  intros Hk Hs Hc Hp. split.
  - destruct (exec_to_invoke i w a p Hk Hs Hc Hp) as (w' & He & Hm & Hcalls).
    exists w'. assert (messages w' = messages w ++ [Message user p]) as Hm'.
    { unfold messages at 1. by rewrite Hm. }
    split_and!; [exact He | exact Hm' | rewrite Hm'; apply last_snoc |].
    cbn [step]. rewrite Hm'. by destruct (invoke i a p).
  - intros n a' p' Hat. pose proof (exec_pending n i w) as Hpend.
    unfold pending in Hpend. rewrite Hat in Hpend. tauto.
Qed.

Lemma user_message_stored_before_invoke_witness :
  (exists w',
      exec 10 (ask "2+2" (answering "4")) (AtHeader, fresh) = (AtInvoke the_executor "2+2", w') /\
      messages w' = messages fresh ++ [Message user "2+2"] /\
      last (messages w') = Some (Message user "2+2") /\
      calls (step (ask "2+2" (answering "4")) (AtInvoke the_executor "2+2", w')).2 =
        calls w' ++ [Invoked the_executor "2+2" (messages fresh ++ [Message user "2+2"])]) /\
  (forall n a' p',
      (exec n (ask "2+2" (answering "4")) (AtHeader, fresh)).1 = AtInvoke a' p' ->
      last (messages (exec n (ask "2+2" (answering "4")) (AtHeader, fresh)).2)
        = Some (Message user p')).
Proof.
  apply (user_message_stored_before_invoke (ask "2+2" (answering "4")) fresh
           the_executor "2+2"); reflexivity.
Defined.

(** ** The credential gate *)

Lemma exec_no_key n i w :
  truthy (openai_api_key i) = false ->
  before_setup (exec n i (AtHeader, w)).1 = true.
Proof.
  intros Hk. destruct n as [|[|n]]; [exact eq_refl | exact eq_refl |].
  cbn [exec]. red_step. rewrite Hk. by rewrite exec_stays.
Qed.

(** C3. With an empty or absent credential the execution stops at the gate
    of lines 139-141, in the state awaiting the credential: it never stands
    at a statement past the gate, so the agent is not constructed and the
    executor is not called, and the transcript, the stored executor, the
    environment and the list of calls made are what they were. *)
Theorem empty_credential_stops_at_gate i w :
  truthy (openai_api_key i) = false ->
  (run i w).1 = Stopped KeyGate /\
  ui_state_of (run i w).1 = Some AwaitingCredential /\
  (forall n, before_setup (exec n i (AtHeader, w)).1 = true) /\
  session_messages (run i w).2 = session_messages w /\
  resource_cache (run i w).2 = resource_cache w /\
  environ (run i w).2 = environ w /\
  calls (run i w).2 = calls w.
Proof.
  intros Hk. rewrite (run_no_key i w Hk).
  split_and!; try exact eq_refl.
  intros n. by apply exec_no_key.
Qed.

Lemma empty_credential_stops_at_gate_witness :
  (run no_key fresh).1 = Stopped KeyGate /\
  ui_state_of (run no_key fresh).1 = Some AwaitingCredential /\
  (forall n, before_setup (exec n no_key (AtHeader, fresh)).1 = true) /\
  session_messages (run no_key fresh).2 = session_messages fresh /\
  resource_cache (run no_key fresh).2 = resource_cache fresh /\
  environ (run no_key fresh).2 = environ fresh /\
  calls (run no_key fresh).2 = calls fresh.
Proof. apply (empty_credential_stops_at_gate no_key fresh). reflexivity. Defined.

(** ** The chat handler *)

Lemma run_quiet i w :
  truthy (chat_input i) = false ->
  messages (run i w).2 = messages w /\
  List.filter is_invocation (calls (run i w).2) = List.filter is_invocation (calls w).
Proof.
  intros Hc. destruct (truthy (openai_api_key i)) eqn:Hk.
  - destruct (setup_agent (libs i) w).1 as [a|e|] eqn:Hs.
    + destruct (run_idle i w a Hk Hs Hc) as (_ & Hm & _ & Hcalls).
      unfold messages at 1. rewrite Hm, Hcalls. split; [exact eq_refl|].
      unfold setup_agent. destruct (resource_cache w); [exact eq_refl|].
      destruct (setup_agent_body (libs i)); try exact eq_refl.
      cbn [snd record_call cache_agent calls]. rewrite List.filter_app.
      cbn. apply app_nil_r.
    + destruct (run_setup_raises i w e Hk Hs) as (_ & Hm & _ & Hcalls).
      unfold messages. by rewrite Hm, Hcalls.
    + destruct (run_setup_exits i w Hk Hs) as (_ & Hm & _ & Hcalls).
      unfold messages. by rewrite Hm, Hcalls.
  - by rewrite (run_no_key i w Hk).
Qed.

(** C10. On a falsy chat-input value ([None] or the empty text) the handler
    body is skipped: from line 165 the script ends at once, having drawn only
    the input box, with every store as it was; over the whole execution the
    transcript is unchanged and no executor call is added. *)
Theorem empty_chat_input_skips_handler i a w :
  truthy (chat_input i) = false ->
  handler i a w = (Finished, render [ChatInput "Ask me anything..."] w) /\
  session_messages (handler i a w).2 = session_messages w /\
  calls (handler i a w).2 = calls w /\
  screen (handler i a w).2 = screen w ++ [ChatInput "Ask me anything..."] /\
  messages (run i w).2 = messages w /\
  List.filter is_invocation (calls (run i w).2) = List.filter is_invocation (calls w).
Proof.
  intros Hc. rewrite (handler_idle i a w Hc).
  destruct (run_quiet i w Hc) as [Hm Hcalls].
  by split_and!.
Qed.

Lemma empty_chat_input_skips_handler_witness :
  handler (ask "" (answering "4")) the_executor fresh
    = (Finished, render [ChatInput "Ask me anything..."] fresh) /\
  session_messages (handler (ask "" (answering "4")) the_executor fresh).2
    = session_messages fresh /\
  calls (handler (ask "" (answering "4")) the_executor fresh).2 = calls fresh /\
  screen (handler (ask "" (answering "4")) the_executor fresh).2
    = screen fresh ++ [ChatInput "Ask me anything..."] /\
  messages (run (ask "" (answering "4")) fresh).2 = messages fresh /\
  List.filter is_invocation (calls (run (ask "" (answering "4")) fresh).2)
    = List.filter is_invocation (calls fresh).
Proof.
  apply (empty_chat_input_skips_handler (ask "" (answering "4")) the_executor fresh).
  reflexivity.
Defined.

(** ** The two ways a handled submission ends *)

(** C2, as amended.  When [invoke] raises an instance of [Exception] while a
    submission is handled, the handler catches it: the execution reaches the end of the script (the loop is
    ready again), and the transcript is the earlier transcript, unchanged,
    followed by the user's message and exactly one assistant-role message,
    whose content is the error text built around the exception's text. *)
Theorem executor_exception_is_caught i w a p e :
  truthy (openai_api_key i) = true ->
  (setup_agent (libs i) w).1 = Returns a ->
  chat_input i = Some p -> truthy (Some p) = true ->
  invoke i a p = Raises e ->
  (run i w).1 = Finished /\
  ui_state_of (run i w).1 = Some Ready /\
  messages (run i w).2 =
    messages w ++ [Message user p; Message assistant (error_text e)] /\
  error_text e = "An error occurred: " +:+ e +:+ ". Please try again.".
Proof.
  intros Hk Hs Hc Hp He.
  destruct (run_submit i w a p Hk Hs Hc Hp) as (Hpc & Hm & _).
  rewrite He in Hpc, Hm. rewrite Hpc. unfold messages at 1. rewrite Hm.
  by split_and!.
Qed.

Lemma executor_exception_is_caught_witness :
  (run (ask "2+2" (failing "timeout")) fresh).1 = Finished /\
  ui_state_of (run (ask "2+2" (failing "timeout")) fresh).1 = Some Ready /\
  messages (run (ask "2+2" (failing "timeout")) fresh).2 =
    messages fresh ++ [Message user "2+2"; Message assistant (error_text "timeout")] /\
  error_text "timeout" = "An error occurred: " +:+ "timeout" +:+ ". Please try again.".
Proof.
  apply (executor_exception_is_caught (ask "2+2" (failing "timeout")) fresh
           the_executor "2+2" "timeout"); reflexivity.
Defined.

(** C2 as stated, for every exception whatever its class, fails: a
    system-exiting exception raised by [invoke] passes [except Exception],
    the script dies and no assistant message is appended. *)
Lemma executor_exception_is_caught_counterexample : ~ every_exception_is_caught.
Proof.
  intros H.
  destruct (H (ask "2+2" interrupted) fresh the_executor "2+2") as [Hend _];
    try reflexivity; [discriminate|].
  vm_compute in Hend. discriminate.
Qed.

(** C9. When [invoke] returns a dictionary, the assistant message appended
    after the user's message holds the fallback text if the dictionary has
    no key "output", and otherwise exactly the value stored under it. *)
Theorem answer_is_output_or_fallback i w a p response :
  truthy (openai_api_key i) = true ->
  (setup_agent (libs i) w).1 = Returns a ->
  chat_input i = Some p -> truthy (Some p) = true ->
  invoke i a p = Returns response ->
  exists final_answer,
    messages (run i w).2 =
      messages w ++ [Message user p; Message assistant final_answer] /\
    (response !! "output" = None ->
       final_answer = "Sorry, I encountered an error.") /\
    (forall v, response !! "output" = Some v -> final_answer = v).
Proof.
  intros Hk Hs Hc Hp He.
  destruct (run_submit i w a p Hk Hs Hc Hp) as (_ & Hm & _).
  rewrite He in Hm. unfold messages at 1. rewrite Hm. cbn [reply].
  eexists. split; [exact eq_refl|].
  split; [intros -> | intros v ->]; exact eq_refl.
Qed.

Lemma answer_is_output_or_fallback_witness :
  exists final_answer,
    messages (run (ask "2+2" (fun _ _ => Returns ∅)) fresh).2 =
      messages fresh ++ [Message user "2+2"; Message assistant final_answer] /\
    ((∅ : gmap string string) !! "output" = None ->
       final_answer = "Sorry, I encountered an error.") /\
    (forall v, (∅ : gmap string string) !! "output" = Some v -> final_answer = v).
Proof.
  apply (answer_is_output_or_fallback (ask "2+2" (fun _ _ => Returns ∅)) fresh
           the_executor "2+2" ∅); reflexivity.
Defined.

(** ** Transcripts of whole sessions *)

Lemma run_exchange i w :
  propagated (run i w).1 = false ->
  map msg_role (messages (run i w).2) =
    map msg_role (messages w)
    ++ alternating (if truthy (chat_input i) && finished (run i w).1 then 1 else 0).
Proof.
  intros Hp. destruct (truthy (chat_input i)) eqn:Hc; cycle 1.
  { destruct (run_quiet i w Hc) as [-> _]. cbn. by rewrite app_nil_r. }
  destruct (truthy (openai_api_key i)) eqn:Hk; cycle 1.
  { rewrite (run_no_key i w Hk). cbn. by rewrite app_nil_r. }
  destruct (setup_agent (libs i) w).1 as [a|e|] eqn:Hs.
  - destruct (truthy_Some _ Hc) as [p Hi]. rewrite Hi in Hc.
    destruct (run_submit i w a p Hk Hs Hi Hc) as (Hpc & Hm & _).
    unfold messages at 1. rewrite Hm, Hpc in *.
    destruct (invoke i a p); try discriminate; cbn [reply];
      cbn [default from_option id]; rewrite map_app; exact eq_refl.
  - destruct (run_setup_raises i w e Hk Hs) as (Hpc & Hm & _).
    unfold messages. rewrite Hm, Hpc. cbn. by rewrite app_nil_r.
  - destruct (run_setup_exits i w Hk Hs) as (Hpc & _). by rewrite Hpc in Hp.
Qed.

Lemma alternating_add m n : alternating (m + n) = alternating m ++ alternating n.
Proof. induction m as [|m IH]; [done|]. cbn. by rewrite IH. Qed.

Lemma alternating_length n : length (alternating n) = 2 * n.
Proof. induction n as [|n IH]; cbn; lia. Qed.

Lemma session_roles inputs w :
  Forall (fun l => propagated l = false) (session_ends inputs w) ->
  map msg_role (messages (session inputs w)) =
    map msg_role (messages w) ++ alternating (submissions inputs w).
Proof.
  revert w; induction inputs as [|i rest IH]; intros w Hall.
  - cbn. by rewrite app_nil_r.
  - rewrite session_ends_cons in Hall. apply Forall_cons in Hall as [Hi Hrest].
    rewrite session_cons, submissions_cons, (IH _ Hrest), (run_exchange i w Hi).
    by rewrite alternating_add, app_assoc.
Qed.

Lemma submissions_all inputs w :
  Forall (fun i => truthy (chat_input i) = true) inputs ->
  Forall (fun l => finished l = true) (session_ends inputs w) ->
  submissions inputs w = length inputs.
Proof.
  revert w; induction inputs as [|i rest IH]; intros w Hin Hend; [done|].
  rewrite session_ends_cons in Hend.
  apply Forall_cons in Hin as [Hi Hin]. apply Forall_cons in Hend as [He Hend].
  rewrite submissions_cons, Hi, He, (IH _ Hin Hend). exact eq_refl.
Qed.

Lemma session_transcript_shape inputs w :
  messages w = [] ->
  Forall (fun l => propagated l = false) (session_ends inputs w) ->
  length (messages (session inputs w)) = 2 * submissions inputs w /\
  map msg_role (messages (session inputs w)) = alternating (submissions inputs w).
Proof.
  intros Hw Hall. pose proof (session_roles inputs w Hall) as Hr.
  rewrite Hw in Hr. cbn [map app] in Hr. split; [|exact Hr].
  by rewrite <- (length_map msg_role), Hr, alternating_length.
Qed.

Lemma served_setup i w :
  libs i = Returns () -> exists a, (setup_agent (libs i) w).1 = Returns a.
Proof.
  intros Hl. unfold setup_agent. destruct (resource_cache w) as [a|]; [by exists a|].
  rewrite Hl. by eexists.
Qed.

Lemma served_finishes i w : served i -> (run i w).1 = Finished.
Proof.
  intros ((k & Hkey & Hk & _) & Hl & Hi).
  assert (truthy (openai_api_key i) = true) as Hk' by by rewrite Hkey.
  destruct (served_setup i w Hl) as [a Hs].
  destruct (truthy (chat_input i)) eqn:Hc.
  - destruct (truthy_Some _ Hc) as [p Hp]. rewrite Hp in Hc.
    destruct (run_submit i w a p Hk' Hs Hp Hc) as (-> & _).
    specialize (Hi a p). by destruct (invoke i a p).
  - by destruct (run_idle i w a Hk' Hs Hc) as (-> & _).
Qed.

Lemma served_session inputs w :
  Forall served inputs ->
  Forall (fun l => l = Finished) (session_ends inputs w) /\
  submissions inputs w = asked inputs.
Proof.
  revert w; induction inputs as [|i rest IH]; intros w Hall; [by split|].
  apply Forall_cons in Hall as [Hi Hrest].
  destruct (IH (run i w).2 Hrest) as [Hends Hn].
  rewrite session_ends_cons, submissions_cons, Hn, (served_finishes i w Hi).
  split; [by constructor|].
  unfold asked. cbn [List.filter finished]. rewrite andb_true_r.
  by destruct (truthy (chat_input i)).
Qed.

(** C1. Take a session that starts with an empty transcript and in which
    every execution gets as far as the chat input and is not cut short
    (its key passes the gate and is one the environment accepts, the
    library constructors go through, the executor returns or raises).
    Then every execution reaches the end of the script, and the transcript
    after the session consists of exactly 2N messages with roles user,
    assistant, user, assistant, ..., where N is the number of non-empty
    chat inputs submitted; whether the executor returned or raised makes no
    difference.  When every execution carries a submission, N is the
    length of the session. *)
Theorem transcript_alternates_after_submissions inputs w :
  messages w = [] ->
  Forall served inputs ->
  Forall (fun l => l = Finished) (session_ends inputs w) /\
  length (messages (session inputs w)) = 2 * asked inputs /\
  map msg_role (messages (session inputs w)) = alternating (asked inputs) /\
  (Forall (fun i => truthy (chat_input i) = true) inputs ->
   length (messages (session inputs w)) = 2 * length inputs /\
   map msg_role (messages (session inputs w)) = alternating (length inputs)).
Proof.
  intros Hw Hall. destruct (served_session inputs w Hall) as [Hends Hn].
  assert (Forall (fun l => propagated l = false) (session_ends inputs w)) as Hp.
  { eapply Forall_impl; [exact Hends|]. by intros l ->. }
  destruct (session_transcript_shape inputs w Hw Hp) as [Hlen Hroles].
  rewrite Hn in Hlen, Hroles. split_and!; try done.
  intros Hchat.
  assert (asked inputs = length inputs) as <-; [|by split].
  unfold asked. clear -Hchat. induction Hchat as [|i rest Hi _ IH]; [done|].
  cbn [List.filter]. rewrite Hi. cbn [length]. by rewrite IH.
Qed.

Lemma transcript_alternates_after_submissions_witness :
  Forall (fun l => l = Finished) (session_ends two_submissions fresh) /\
  length (messages (session two_submissions fresh)) = 2 * asked two_submissions /\
  map msg_role (messages (session two_submissions fresh))
    = alternating (asked two_submissions) /\
  (Forall (fun i => truthy (chat_input i) = true) two_submissions ->
   length (messages (session two_submissions fresh)) = 2 * length two_submissions /\
   map msg_role (messages (session two_submissions fresh))
     = alternating (length two_submissions)).
Proof.
  apply (transcript_alternates_after_submissions two_submissions fresh).
  - reflexivity.
  - repeat constructor; try discriminate; by exists "sk-test".
Defined.

Example two_submissions_transcript :
  messages (session two_submissions fresh) =
    [ Message user "2+2"; Message assistant "4";
      Message user "weather";
      Message assistant "An error occurred: timeout. Please try again." ] /\
  submissions two_submissions fresh = 2 /\ asked two_submissions = 2.
Proof. vm_compute. done. Qed.

(** ** One executor, built once *)

Lemma built_of_body l a : setup_agent_body l = Returns a -> built a.
Proof. unfold built. destruct l as [[]| |]; cbn; congruence. Qed.

Lemma constructions_app cs1 cs2 :
  constructions (cs1 ++ cs2) = constructions cs1 + constructions cs2.
Proof. induction cs1 as [|c cs1 IH]; [done|]. cbn. rewrite IH. lia. Qed.

Lemma step_holding i c : holding c -> holding (step i c).
Proof.
  destruct c as [l w]. unfold holding, coherent.
  destruct l; intros [[Hb Hall] Hl]; step_cases; simplify_eq; try done.
  1: { destruct (calls w) as [|c cs]; [|by apply Forall_cons in Hall as [? _]].
       split_and!; eauto using built_of_body. cbn. by repeat constructor. }
  all: destruct Hb; split_and!; try done;
    [ rewrite constructions_app; cbn; lia
    | apply Forall_app; split; [done|]; by repeat constructor ].
Qed.

Lemma exec_holding n i c : holding c -> holding (exec n i c).
Proof.
  intros Hc. induction n as [|n IH]; [exact Hc|].
  rewrite exec_S. by apply step_holding.
Qed.

Lemma run_coherent i w : coherent w -> coherent (run i w).2.
Proof.
  intros Hw. rewrite run_unfold.
  destruct (exec_holding (rank AtHeader) i (AtHeader, w)) as [H _]; [by split | exact H].
Qed.

Lemma session_coherent inputs w : coherent w -> coherent (session inputs w).
Proof.
  revert w; induction inputs as [|i rest IH]; intros w Hw; [exact Hw|].
  rewrite session_cons. by apply IH, run_coherent.
Qed.

Lemma fresh_coherent : coherent fresh.
Proof. split; [exact eq_refl | constructor]. Qed.

Lemma step_keeps_executor i c :
  resource_cache c.2 = None \/ resource_cache (step i c).2 = resource_cache c.2.
Proof.
  destruct c as [l w]. destruct (resource_cache w) eqn:Hc; [right | by left].
  destruct l; step_cases; simplify_eq; congruence.
Qed.

Lemma exec_keeps_executor n i c :
  resource_cache c.2 = None \/ resource_cache (exec n i c).2 = resource_cache c.2.
Proof.
  induction n as [|n IH]; [by right|]. rewrite exec_S.
  destruct IH as [?|IH]; [by left|].
  destruct (step_keeps_executor i (exec n i c)) as [H|H]; [left | right]; congruence.
Qed.

Lemma run_keeps_executor i w :
  resource_cache w = None \/ resource_cache (run i w).2 = resource_cache w.
Proof. rewrite run_unfold. apply (exec_keeps_executor _ i (AtHeader, w)). Qed.

Lemma session_keeps_executor inputs w :
  resource_cache w = None \/ resource_cache (session inputs w) = resource_cache w.
Proof.
  revert w; induction inputs as [|i rest IH]; intros w; [by right|].
  rewrite session_cons.
  destruct (run_keeps_executor i w) as [?|Hr]; [by left|].
  destruct (IH (run i w).2) as [Hn|Hs]; [left | right]; congruence.
Qed.

Lemma session_app xs ys w : session (xs ++ ys) w = session ys (session xs w).
Proof.
  revert w; induction xs as [|i xs IH]; intros w; [exact eq_refl|].
  rewrite <- app_comm_cons, !session_cons. apply IH.
Qed.

Lemma built_is_the_executor a : built a -> a = the_executor.
Proof. unfold built. intros H. cbn in H. injection H as <-. exact eq_refl. Qed.

(** C8. In any session of a fresh process the body of [setup_agent] returns
    an executor at most once; every construction and every executor call of
    the session is on the executor that the store holds at the end, so all
    interactions share that one instance; and no statement of the script,
    no execution and no further stretch of the session replaces or changes
    an executor once it is stored. *)
Theorem executor_built_once_and_shared inputs :
  constructions (calls (session inputs fresh)) <= 1 /\
  Forall (fun c => resource_cache (session inputs fresh) = Some (executor_of c))
         (calls (session inputs fresh)) /\
  (forall i c,
      resource_cache c.2 = None \/ resource_cache (step i c).2 = resource_cache c.2) /\
  (forall i w,
      resource_cache w = None \/ resource_cache (run i w).2 = resource_cache w) /\
  (forall more,
      resource_cache (session inputs fresh) = None \/
      resource_cache (session (inputs ++ more) fresh)
        = resource_cache (session inputs fresh)).
Proof.
  destruct (session_coherent inputs fresh fresh_coherent) as [Hn Hall].
  split_and!.
  - destruct (resource_cache (session inputs fresh)); [destruct Hn|]; lia.
  - exact Hall.
  - apply step_keeps_executor.
  - apply run_keeps_executor.
  - intros more. rewrite session_app. apply session_keeps_executor.
Qed.




(** The loader refuses what is not in its table, and the math helper when
    no model is passed. *)
Example load_tools_refusals :
  load_tools ["ddg-search"; "no-such-tool"] (Some {| temperature := 0 |})
    = Raises "Got unknown tool no-such-tool" /\
  load_tools ["ddg-search"; "llm-math"] None
    = Raises "Tool llm-math requires an LLM to be provided" /\
  load_tools ["ddg-search"; "llm-math"] (Some {| temperature := 0 |})
    = Returns registry.
Proof. by split_and!. Qed.

Example two_submissions_calls :
  calls (session two_submissions fresh) =
    [ Constructed the_executor;
      Invoked the_executor "2+2" [Message user "2+2"];
      Invoked the_executor "weather"
        [Message user "2+2"; Message assistant "4"; Message user "weather"] ] /\
  resource_cache (session two_submissions fresh) = Some the_executor.
Proof. vm_compute. done. Qed.

(** ** The iteration cap *)

Section LoopBound.
Import ReasoningLoop.
Variable model : string -> scratchpad -> suggestion.
Variable registry : list tool.
Variable corrective : suggestion -> string.
Variable best_effort : scratchpad -> string.
Variable question : string.

Abbreviation rounds_of cfg := (rounds model registry corrective best_effort cfg question).

Lemma rounds_bound cfg budget pad : length (rounds_of cfg budget pad).2 <= budget.
Proof.
  revert pad; induction budget as [|budget IH]; intros pad; [done|].
  cbn [rounds].
  repeat case_match; simplify_eq; cbn [snd length]; try lia;
    match goal with
    | H : rounds_of _ _ ?p = (_, ?made) |- _ =>
        pose proof (IH p) as Hb; rewrite H in Hb; cbn [snd] in Hb; lia
    end.
Qed.

Lemma rounds_tolerant cfg budget pad :
  parsing_error_tolerance cfg = true ->
  (exists text,
      (rounds_of cfg budget pad).1 = inr text /\
      last (rounds_of cfg budget pad).2 = Some (FinalAnswer text)) \/
  (exists pad',
      (rounds_of cfg budget pad).1 = inr (best_effort pad') /\
      length (rounds_of cfg budget pad).2 = budget).
Proof.
  intros Htol. revert pad; induction budget as [|budget IH]; intros pad.
  { right. by exists pad. }
  cbn [rounds]. rewrite Htol.
  repeat case_match; simplify_eq; cbn [fst snd length];
    try (left; eexists; split; exact eq_refl);
    match goal with
    | H : rounds_of _ _ ?p = (_, ?made) |- _ =>
        destruct (IH p) as [(text & Hr & Hl) | (pad' & Hr & Hl)];
        rewrite H in Hr, Hl; cbn [fst snd] in Hr, Hl; subst;
        [ left; eexists; split; [exact eq_refl|];
          destruct made; [discriminate | exact Hl]
        | right; eexists; split; exact eq_refl ]
    end.
Qed.

Lemma dispatches_bound made : dispatches made <= length made.
Proof. unfold dispatches. apply List.filter_length_le. Qed.
End LoopBound.

(** C6. Modelled on section 4.1 of the specification: a question put to the
    loop configured as the script configures the executor ([max_iterations]
    5, parsing errors tolerated) costs at most five rounds, hence at most
    five tool dispatches, and the loop returns an output text: the final
    answer of its last round, or, when all five rounds were used without a
    final answer, the best-effort text.  For any cap [k] the rounds number
    at most [k]. *)
Theorem reasoning_loop_is_capped l a model registry corrective best_effort question :
  setup_agent_body l = Returns a ->
  ReasoningLoop.iteration_cap (ReasoningLoop.configuration_of a) = 5 /\
  length (ReasoningLoop.answer model registry corrective best_effort
            (ReasoningLoop.configuration_of a) question).2 <= 5 /\
  ReasoningLoop.dispatches
    (ReasoningLoop.answer model registry corrective best_effort
       (ReasoningLoop.configuration_of a) question).2 <= 5 /\
  ((exists text,
       (ReasoningLoop.answer model registry corrective best_effort
          (ReasoningLoop.configuration_of a) question).1 = inr text /\
       last (ReasoningLoop.answer model registry corrective best_effort
               (ReasoningLoop.configuration_of a) question).2
         = Some (ReasoningLoop.FinalAnswer text)) \/
   (exists pad,
       (ReasoningLoop.answer model registry corrective best_effort
          (ReasoningLoop.configuration_of a) question).1 = inr (best_effort pad) /\
       length (ReasoningLoop.answer model registry corrective best_effort
                 (ReasoningLoop.configuration_of a) question).2 = 5)) /\
  (forall cfg,
      length (ReasoningLoop.answer model registry corrective best_effort cfg question).2
        <= ReasoningLoop.iteration_cap cfg).
Proof.
  intros Hb. apply built_of_body, built_is_the_executor in Hb as ->.
  pose proof (rounds_bound model registry corrective best_effort question
                (ReasoningLoop.configuration_of the_executor) 5 []) as Hr.
  split_and!.
  - exact eq_refl.
  - exact Hr.
  - etrans; [apply dispatches_bound | exact Hr].
  - apply (rounds_tolerant model registry corrective best_effort question
             (ReasoningLoop.configuration_of the_executor) 5 []).
    exact eq_refl.
  - intros cfg. apply rounds_bound.
Qed.

Lemma reasoning_loop_is_capped_witness :
  ReasoningLoop.iteration_cap (ReasoningLoop.configuration_of the_executor) = 5 /\
  length (ReasoningLoop.answer restless_model [search_tool] retry_text stopped_text
            (ReasoningLoop.configuration_of the_executor) "news").2 <= 5 /\
  ReasoningLoop.dispatches
    (ReasoningLoop.answer restless_model [search_tool] retry_text stopped_text
       (ReasoningLoop.configuration_of the_executor) "news").2 <= 5 /\
  ((exists text,
       (ReasoningLoop.answer restless_model [search_tool] retry_text stopped_text
          (ReasoningLoop.configuration_of the_executor) "news").1 = inr text /\
       last (ReasoningLoop.answer restless_model [search_tool] retry_text stopped_text
               (ReasoningLoop.configuration_of the_executor) "news").2
         = Some (ReasoningLoop.FinalAnswer text)) \/
   (exists pad,
       (ReasoningLoop.answer restless_model [search_tool] retry_text stopped_text
          (ReasoningLoop.configuration_of the_executor) "news").1 = inr (stopped_text pad) /\
       length (ReasoningLoop.answer restless_model [search_tool] retry_text stopped_text
                 (ReasoningLoop.configuration_of the_executor) "news").2 = 5)) /\
  (forall cfg,
      length (ReasoningLoop.answer restless_model [search_tool] retry_text stopped_text
                cfg "news").2
        <= ReasoningLoop.iteration_cap cfg).
Proof.
  apply (reasoning_loop_is_capped (Returns ()) the_executor restless_model
           [search_tool] retry_text stopped_text "news").
  reflexivity.
Defined.

Example restless_model_stops :
  ReasoningLoop.answer restless_model [search_tool] retry_text stopped_text
    (ReasoningLoop.configuration_of the_executor) "news"
  = (inr "Agent stopped due to iteration limit or time limit.",
     replicate 5 (ReasoningLoop.Action "ddg-search" "news")).
Proof. vm_compute. done. Qed.

(** A signal outside [Exception] passes the handler of line 184: the script
    dies with the user's message stored and no reply, which is why the
    statement on whole sessions asks that every execution come to its end. *)
Example interrupted_submission :
  (run (ask "2+2" interrupted) fresh).1 = Propagated /\
  messages (run (ask "2+2" interrupted) fresh).2 = [Message user "2+2"].
Proof. vm_compute. done. Qed.

(** * Further properties of the script *)

(** ** The stretches of an execution *)

Ltac world_eq :=
  unfold render, set_messages, set_environ, clear_screen, cache_agent, record_call;
  cbn [session_messages resource_cache environ screen calls app];
  repeat match goal with
         | H : session_messages _ = _ |- _ => rewrite H; clear H
         | H : resource_cache _ = _ |- _ => rewrite H; clear H
         end;
  cbn [default from_option id show msg_role msg_content reply shown app];
  rewrite <- ?app_assoc, ?app_nil_r;
  cbn [app].

Lemma exec_add n m i c : exec (n + m) i c = exec m i (exec n i c).
Proof.
  revert c; induction n as [|n IH]; intros c; [exact eq_refl|].
  cbn [Nat.add exec]. apply IH.
Qed.

Lemma exec_booted i w k :
  openai_api_key i = Some k -> truthy (Some k) = true ->
  exec 3 i (AtHeader, w) = (AtSetup, booted k w).
Proof.
  intros Hkey Hk. cbn [exec]. red_step. rewrite Hkey, Hk. red_step. rewrite Hkey.
  exact eq_refl.
Qed.

Lemma exec_entered i w k a :
  openai_api_key i = Some k -> truthy (Some k) = true ->
  (setup_agent (libs i) w).1 = Returns a ->
  exec 6 i (AtHeader, w) = (AtChatInput a, entered k a w).
Proof.
  intros Hkey Hk Hs. cbn [exec]. red_step. rewrite Hkey, Hk. red_step. rewrite Hkey.
  red_step. unfold entered, messages.
  destruct (resource_cache w) eqn:Hcache; red_step; simplify_eq.
  all: step_cases; world_eq; exact eq_refl.
Qed.

Lemma handler_exchange i a w ms p :
  session_messages w = Some ms ->
  chat_input i = Some p -> truthy (Some p) = true ->
  handler i a w =
    (match invoke i a p with Exits => Propagated | _ => Finished end,
     exchanged a p (invoke i a p) w).
Proof.
  intros Hm Hc Hp. unfold handler, exchanged; cbn [exec rank]. red_step.
  rewrite Hc, Hp. red_step. rewrite Hm. red_step.
  destruct (invoke i a p); step_cases; world_eq; exact eq_refl.
Qed.

Lemma run_split i w : run i w = exec 11 i (exec 6 i (AtHeader, w)).
Proof. rewrite run_unfold. exact (exec_add 6 11 i (AtHeader, w)). Qed.

Lemma run_handler i w k a :
  openai_api_key i = Some k -> truthy (Some k) = true ->
  (setup_agent (libs i) w).1 = Returns a ->
  run i w = handler i a (entered k a w).
Proof.
  intros Hkey Hk Hs. rewrite run_split, (exec_entered i w k a Hkey Hk Hs).
  exact eq_refl.
Qed.

Lemma run_setup_raises_exact i w k e :
  openai_api_key i = Some k -> truthy (Some k) = true ->
  (setup_agent (libs i) w).1 = Raises e ->
  run i w = (Stopped InitFailure, render [Error (init_error_text e)] (booted k w)).
Proof.
  intros Hkey Hk Hs. rewrite run_unfold. change (rank AtHeader) with (3 + 14).
  rewrite exec_add, (exec_booted i w k Hkey Hk).
  unfold setup_agent in Hs. unfold booted. cbn [exec]. red_step.
  destruct (resource_cache w) eqn:Hcache; red_step; simplify_eq.
  destruct (setup_agent_body (libs i)); step_cases; simplify_eq; exact eq_refl.
Qed.

Lemma run_setup_exits_exact i w k :
  openai_api_key i = Some k -> truthy (Some k) = true ->
  (setup_agent (libs i) w).1 = Exits ->
  run i w = (Propagated, booted k w).
Proof.
  intros Hkey Hk Hs. rewrite run_unfold. change (rank AtHeader) with (3 + 14).
  rewrite exec_add, (exec_booted i w k Hkey Hk).
  unfold setup_agent in Hs. unfold booted. cbn [exec]. red_step.
  destruct (resource_cache w) eqn:Hcache; red_step; simplify_eq.
  destruct (setup_agent_body (libs i)); step_cases; simplify_eq; exact eq_refl.
Qed.

Lemma truthy_key i : truthy (openai_api_key i) = true ->
  exists k, openai_api_key i = Some k /\ truthy (Some k) = true.
Proof. intros Hk. destruct (truthy_Some _ Hk) as [k Hkey]. exists k. by rewrite <- Hkey. Qed.

Lemma setup_agent_result l w w' :
  resource_cache w' = resource_cache w ->
  (setup_agent l w').1 = (setup_agent l w).1.
Proof.
  unfold setup_agent. intros ->. destruct (resource_cache w); [exact eq_refl|].
  by destruct (setup_agent_body l).
Qed.

(** ** Where an execution ends *)

Lemma run_ending i w : (run i w).1 = ending i w.
Proof.
  unfold ending. destruct (truthy (openai_api_key i)) eqn:Hk; cycle 1.
  { by rewrite (run_no_key i w Hk). }
  destruct (setup_agent (libs i) w).1 as [a|e|] eqn:Hs.
  - destruct (truthy (chat_input i)) eqn:Hc.
    + destruct (truthy_Some _ Hc) as [p Hi]. rewrite Hi in Hc |- *. rewrite Hc.
      by destruct (run_submit i w a p Hk Hs Hi Hc) as (-> & _).
    + destruct (run_idle i w a Hk Hs Hc) as (-> & _).
      destruct (chat_input i); [by rewrite Hc | done].
  - by destruct (run_setup_raises i w e Hk Hs) as (-> & _).
  - by destruct (run_setup_exits i w Hk Hs) as (-> & _).
Qed.

(** X1. For a key the environment accepts, an execution ends where its
    inputs say: stopped at the key gate on a falsy key, stopped after the error notice when the setup raises, dead
    when a signal escapes the setup or the executor call, and at the end of
    the script otherwise. *)
Theorem run_ends_as_predicted i w :
  key_storable i -> (run i w).1 = ending i w.
Proof. intros _. apply run_ending. Qed.

Lemma run_ends_as_predicted_witness :
  (run (ask "2+2" interrupted) fresh).1 = ending (ask "2+2" interrupted) fresh.
Proof.
  apply (run_ends_as_predicted (ask "2+2" interrupted) fresh).
  intros k Hk. injection Hk as <-. reflexivity.
Defined.

Lemma setup_exits l w : (setup_agent l w).1 = Exits -> l = Exits.
Proof.
  unfold setup_agent. destruct (resource_cache w); [discriminate|].
  by destruct l.
Qed.

Lemma run_survives i w :
  libs i <> Exits -> (forall a p, invoke i a p <> Exits) ->
  propagated (run i w).1 = false.
Proof.
  intros Hl Hi. rewrite run_ending. unfold ending.
  destruct (truthy (openai_api_key i)); [|done].
  destruct (setup_agent (libs i) w).1 as [a|e|] eqn:Hs; [|done|].
  - destruct (chat_input i) as [p|]; [|done].
    destruct (truthy (Some p)); [|done].
    specialize (Hi a p). by destruct (invoke i a p).
  - by apply setup_exits in Hs.
Qed.

Lemma run_stops_or_finishes i w :
  libs i <> Exits -> (forall a p, invoke i a p <> Exits) ->
  (run i w).1 = Finished \/ exists site, (run i w).1 = Stopped site.
Proof.
  intros Hl Hi. pose proof (run_survives i w Hl Hi) as Hp.
  pose proof (run_terminal i w) as Ht.
  destruct (run i w).1; try discriminate; eauto.
Qed.

(** X2. As long as every key is one the environment accepts and the
    libraries fail only by raising instances of [Exception], no execution
    of a session dies: each one ends at one of the two [st.stop()] calls or
    at the end of the script, whatever the stores were. *)
Theorem script_survives_library_errors inputs w :
  Forall (fun i => key_storable i /\
                   libs i <> Exits /\ forall a p, invoke i a p <> Exits) inputs ->
  Forall (fun l => l = Finished \/ exists site, l = Stopped site)
         (session_ends inputs w).
Proof.
  revert w; induction inputs as [|i rest IH]; intros w Hall; [constructor|].
  apply Forall_cons in Hall as [(_ & Hl & Hi) Hrest].
  rewrite session_ends_cons.
  constructor; [by apply run_stops_or_finishes | by apply IH].
Qed.

Lemma script_survives_library_errors_witness :
  Forall (fun l => l = Finished \/ exists site, l = Stopped site)
         (session_ends (broken_libs :: no_key :: two_submissions) fresh).
Proof.
  apply (script_survives_library_errors (broken_libs :: no_key :: two_submissions) fresh).
  repeat constructor; try discriminate; intros k Hk; injection Hk as <-; reflexivity.
Defined.

(** ** The environment *)

Lemma run_environ i w k :
  openai_api_key i = Some k -> truthy (Some k) = true ->
  environ (run i w).2 = <["OPENAI_API_KEY" := k]> (environ w).
Proof.
  intros Hkey Hk. destruct (setup_agent (libs i) w).1 as [a|e|] eqn:Hs.
  - rewrite (run_handler i w k a Hkey Hk Hs).
    destruct (truthy (chat_input i)) eqn:Hc.
    + destruct (truthy_Some _ Hc) as [p Hi]. rewrite Hi in Hc.
      by rewrite (handler_exchange i a (entered k a w) (messages w) p eq_refl Hi Hc).
    + by rewrite (handler_idle i a _ Hc).
  - by rewrite (run_setup_raises_exact i w k e Hkey Hk Hs).
  - by rewrite (run_setup_exits_exact i w k Hkey Hk Hs).
Qed.

(** X3. Every execution that passes the key gate with a key the
    environment accepts leaves the key in the environment under
    OPENAI_API_KEY and every other variable as it was, also when the setup
    fails afterwards or a signal ends the script. *)
Theorem credential_reaches_environment i w k :
  openai_api_key i = Some k -> truthy (Some k) = true -> storable k = true ->
  environ (run i w).2 !! "OPENAI_API_KEY" = Some k /\
  (forall v, v <> "OPENAI_API_KEY" -> environ (run i w).2 !! v = environ w !! v).
Proof.
  intros Hkey Hk _. rewrite (run_environ i w k Hkey Hk). split.
  - apply lookup_insert_eq.
  - intros v Hv. by apply lookup_insert_ne.
Qed.

Lemma credential_reaches_environment_witness :
  environ (run broken_libs fresh).2 !! "OPENAI_API_KEY" = Some "sk-test" /\
  (forall v, v <> "OPENAI_API_KEY" ->
             environ (run broken_libs fresh).2 !! v = environ fresh !! v).
Proof. apply (credential_reaches_environment broken_libs fresh "sk-test"); reflexivity. Defined.

(** ** Setup: failure, retry and the stored executor *)

Lemma run_stores_executor i w a :
  truthy (openai_api_key i) = true ->
  (setup_agent (libs i) w).1 = Returns a ->
  resource_cache (run i w).2 = Some a \/ propagated (run i w).1 = true.
Proof.
  intros Hk Hs. destruct (truthy (chat_input i)) eqn:Hc.
  - destruct (truthy_Some _ Hc) as [p Hi]. rewrite Hi in Hc.
    destruct (run_submit i w a p Hk Hs Hi Hc) as (_ & _ & -> & _). by left.
  - destruct (run_idle i w a Hk Hs Hc) as (_ & _ & -> & _). by left.
Qed.

(** X4. When the setup raises on an empty store, the execution shows the
    error notice under the header and stops; nothing is stored, the
    transcript is not touched, no call is logged.  The next execution whose
    setup goes through builds the executor and stores it: a failed setup is
    not remembered. *)
Theorem failed_setup_is_retried i j w k e :
  openai_api_key i = Some k -> truthy (Some k) = true ->
  resource_cache w = None -> libs i = Raises e ->
  truthy (openai_api_key j) = true -> libs j = Returns () ->
  run i w = (Stopped InitFailure, render [Error (init_error_text e)] (booted k w)) /\
  screen (run i w).2 = header ++ [Error (init_error_text e)] /\
  resource_cache (run i w).2 = None /\
  session_messages (run i w).2 = session_messages w /\
  calls (run i w).2 = calls w /\
  resource_cache (run j (run i w).2).2 = Some the_executor /\
  constructions (calls (run j (run i w).2).2) = S (constructions (calls w)).
Proof.
  intros Hkey Hk Hcache Hl Hkj Hlj.
  assert ((setup_agent (libs i) w).1 = Raises e) as Hs.
  { unfold setup_agent. by rewrite Hcache, Hl. }
  rewrite (run_setup_raises_exact i w k e Hkey Hk Hs).
  split_and!; try done.
  - set (w' := (render [Error (init_error_text e)] (booted k w))).
    assert ((setup_agent (libs j) w').1 = Returns the_executor) as Hsj.
    { subst w'. unfold setup_agent, booted. world_simpl. by rewrite Hcache, Hlj. }
    cbn [snd]. destruct (truthy (chat_input j)) eqn:Hc.
    + destruct (truthy_Some _ Hc) as [p Hi]. rewrite Hi in Hc.
      by destruct (run_submit j w' _ p Hkj Hsj Hi Hc) as (_ & _ & -> & _).
    + by destruct (run_idle j w' _ Hkj Hsj Hc) as (_ & _ & -> & _).
  - set (w' := (render [Error (init_error_text e)] (booted k w))).
    assert ((setup_agent (libs j) w').1 = Returns the_executor) as Hsj.
    { subst w'. unfold setup_agent, booted. world_simpl. by rewrite Hcache, Hlj. }
    assert (calls (setup_agent (libs j) w').2 = calls w ++ [Constructed the_executor]) as Hcs.
    { subst w'. unfold setup_agent, booted. world_simpl. by rewrite Hcache, Hlj. }
    cbn [snd]. destruct (truthy (chat_input j)) eqn:Hc.
    + destruct (truthy_Some _ Hc) as [p Hi]. rewrite Hi in Hc.
      destruct (run_submit j w' _ p Hkj Hsj Hi Hc) as (_ & _ & _ & ->).
      rewrite Hcs, !constructions_app. cbn. lia.
    + destruct (run_idle j w' _ Hkj Hsj Hc) as (_ & _ & _ & ->).
      rewrite Hcs, !constructions_app. cbn. lia.
Qed.

Lemma failed_setup_is_retried_witness :
  run broken_libs fresh
    = (Stopped InitFailure,
       render [Error (init_error_text "No module named duckduckgo_search")]
         (booted "sk-test" fresh)) /\
  screen (run broken_libs fresh).2
    = header ++ [Error (init_error_text "No module named duckduckgo_search")] /\
  resource_cache (run broken_libs fresh).2 = None /\
  session_messages (run broken_libs fresh).2 = session_messages fresh /\
  calls (run broken_libs fresh).2 = calls fresh /\
  resource_cache (run idle (run broken_libs fresh).2).2 = Some the_executor /\
  constructions (calls (run idle (run broken_libs fresh).2).2)
    = S (constructions (calls fresh)).
Proof.
  apply (failed_setup_is_retried broken_libs idle fresh "sk-test"
           "No module named duckduckgo_search"); reflexivity.
Defined.

Lemma step_same_request i j c a :
  same_request i j -> resource_cache c.2 = Some a -> step i c = step j c.
Proof.
  intros (Hk & Hc & Hi) Hcache. destruct c as [l w]. cbn [snd] in Hcache.
  destruct l; cbn [step]; rewrite <- ?Hk, <- ?Hc, ?Hi; try exact eq_refl.
  unfold setup_agent. by rewrite Hcache.
Qed.

Lemma exec_same_request n i j c a :
  same_request i j -> resource_cache c.2 = Some a -> exec n i c = exec n j c.
Proof.
  intros Hij Hcache. induction n as [|n IH]; [exact eq_refl|].
  rewrite !exec_S, IH. apply (step_same_request i j _ a Hij).
  destruct (exec_keeps_executor n j c) as [Hn | ->]; [congruence | exact Hcache].
Qed.

(** X5. Once an executor is stored, the setup's body is not run again: two
    executions on the same stores whose inputs differ only in how the library
    constructors would fare are the same, statement by statement. *)
Theorem stored_executor_skips_setup i j w a :
  same_request i j -> resource_cache w = Some a ->
  run i w = run j w /\ resource_cache (run i w).2 = Some a.
Proof.
  intros Hij Hcache. split.
  - rewrite !run_unfold. by apply (exec_same_request _ i j _ a).
  - destruct (run_keeps_executor i w) as [Hn | ->]; [congruence | exact Hcache].
Qed.

Lemma stored_executor_skips_setup_witness :
  run idle (run idle fresh).2 = run broken_libs (run idle fresh).2 /\
  resource_cache (run idle (run idle fresh).2).2 = Some the_executor.
Proof.
  apply (stored_executor_skips_setup idle broken_libs (run idle fresh).2 the_executor).
  - by split_and!.
  - vm_compute. reflexivity.
Defined.

(** ** One execution as preamble and handler *)

(** X6. An execution that passes the key gate and obtains the executor is
    the chat handler run on the stores the preamble leaves: the key in the
    environment, the executor stored, the transcript present and unchanged,
    the history drawn under the header. *)
Theorem run_is_handler_after_preamble i w k a :
  openai_api_key i = Some k -> truthy (Some k) = true ->
  (setup_agent (libs i) w).1 = Returns a ->
  exec 6 i (AtHeader, w) = (AtChatInput a, entered k a w) /\
  run i w = handler i a (entered k a w) /\
  session_messages (entered k a w) = Some (messages w).
Proof.
  intros Hkey Hk Hs. split_and!.
  - by apply exec_entered.
  - by apply run_handler.
  - exact eq_refl.
Qed.

Lemma run_is_handler_after_preamble_witness :
  exec 6 (ask "2+2" (answering "4")) (AtHeader, fresh)
    = (AtChatInput the_executor, entered "sk-test" the_executor fresh) /\
  run (ask "2+2" (answering "4")) fresh
    = handler (ask "2+2" (answering "4")) the_executor
        (entered "sk-test" the_executor fresh) /\
  session_messages (entered "sk-test" the_executor fresh) = Some (messages fresh).
Proof.
  apply (run_is_handler_after_preamble (ask "2+2" (answering "4")) fresh
           "sk-test" the_executor); reflexivity.
Defined.

Lemma run_exchanged i w k a p :
  openai_api_key i = Some k -> truthy (Some k) = true ->
  (setup_agent (libs i) w).1 = Returns a ->
  chat_input i = Some p -> truthy (Some p) = true ->
  (run i w).2 = exchanged a p (invoke i a p) (entered k a w).
Proof.
  intros Hkey Hk Hs Hi Hc. rewrite (run_handler i w k a Hkey Hk Hs).
  by rewrite (handler_exchange i a (entered k a w) (messages w) p eq_refl Hi Hc).
Qed.

Lemma run_opened i w k a :
  openai_api_key i = Some k -> truthy (Some k) = true ->
  (setup_agent (libs i) w).1 = Returns a ->
  truthy (chat_input i) = false ->
  run i w = (Finished, render [ChatInput "Ask me anything..."] (entered k a w)).
Proof.
  intros Hkey Hk Hs Hc. rewrite (run_handler i w k a Hkey Hk Hs).
  by apply handler_idle.
Qed.

(** ** Calls of the executor *)

(** X7. A handled submission calls the executor exactly once, on the stored
    executor and with the submitted text as it is, whether the call returns,
    raises or is cut short: the calls logged by the execution are the
    construction, if the store was empty, followed by that one call. *)
Theorem one_invoke_per_submission i w k a p :
  openai_api_key i = Some k -> truthy (Some k) = true ->
  (setup_agent (libs i) w).1 = Returns a ->
  chat_input i = Some p -> truthy (Some p) = true ->
  calls (run i w).2 =
    calls w
    ++ match resource_cache w with Some _ => [] | None => [Constructed a] end
    ++ [Invoked a p (messages w ++ [Message user p])] /\
  List.filter is_invocation (calls (run i w).2) =
    List.filter is_invocation (calls w) ++ [Invoked a p (messages w ++ [Message user p])].
Proof.
  intros Hkey Hk Hs Hi Hc. rewrite (run_exchanged i w k a p Hkey Hk Hs Hi Hc).
  cbn [exchanged entered calls messages session_messages default from_option id].
  rewrite <- app_assoc. split; [exact eq_refl|].
  rewrite !List.filter_app. destruct (resource_cache w); cbn; by rewrite ?app_nil_r.
Qed.

Lemma one_invoke_per_submission_witness :
  calls (run (ask "2+2" (failing "timeout")) fresh).2 =
    calls fresh
    ++ match resource_cache fresh with Some _ => [] | None => [Constructed the_executor] end
    ++ [Invoked the_executor "2+2" (messages fresh ++ [Message user "2+2"])] /\
  List.filter is_invocation (calls (run (ask "2+2" (failing "timeout")) fresh).2) =
    List.filter is_invocation (calls fresh)
    ++ [Invoked the_executor "2+2" (messages fresh ++ [Message user "2+2"])].
Proof.
  apply (one_invoke_per_submission (ask "2+2" (failing "timeout")) fresh
           "sk-test" the_executor "2+2"); reflexivity.
Defined.

(** X8. When a signal outside [Exception] cuts the executor call short, the
    script dies with the user's message stored and no reply after it; the
    executor stays stored. *)
Theorem interrupted_submission_keeps_user_message i w k a p :
  openai_api_key i = Some k -> truthy (Some k) = true ->
  (setup_agent (libs i) w).1 = Returns a ->
  chat_input i = Some p -> truthy (Some p) = true ->
  invoke i a p = Exits ->
  (run i w).1 = Propagated /\
  messages (run i w).2 = messages w ++ [Message user p] /\
  resource_cache (run i w).2 = Some a.
Proof.
  intros Hkey Hk Hs Hi Hc He.
  rewrite (run_handler i w k a Hkey Hk Hs).
  rewrite (handler_exchange i a (entered k a w) (messages w) p eq_refl Hi Hc), He.
  by split_and!.
Qed.

Lemma interrupted_submission_keeps_user_message_witness :
  (run (ask "2+2" interrupted) fresh).1 = Propagated /\
  messages (run (ask "2+2" interrupted) fresh).2 = messages fresh ++ [Message user "2+2"] /\
  resource_cache (run (ask "2+2" interrupted) fresh).2 = Some the_executor.
Proof.
  apply (interrupted_submission_keeps_user_message (ask "2+2" interrupted) fresh
           "sk-test" the_executor "2+2"); reflexivity.
Defined.

(** ** The screen *)

Lemma run_screen_submission i w k a p :
  openai_api_key i = Some k -> truthy (Some k) = true ->
  (setup_agent (libs i) w).1 = Returns a ->
  chat_input i = Some p -> truthy (Some p) = true ->
  screen (run i w).2 =
    header ++ flat_map show (messages w)
    ++ [ChatInput "Ask me anything..."; ChatMessage user; Markdown p;
        ChatMessage assistant; Spinner "Thinking..."]
    ++ shown (invoke i a p).
Proof.
  intros Hkey Hk Hs Hi Hc. rewrite (run_exchanged i w k a p Hkey Hk Hs Hi Hc).
  cbn [exchanged entered screen messages session_messages default from_option id show
       msg_role msg_content].
  by rewrite <- !app_assoc.
Qed.

Lemma run_screen_idle i w a :
  truthy (openai_api_key i) = true ->
  (setup_agent (libs i) w).1 = Returns a ->
  truthy (chat_input i) = false ->
  screen (run i w).2 =
    header ++ flat_map show (messages w) ++ [ChatInput "Ask me anything..."].
Proof.
  intros Hk Hs Hc. destruct (truthy_key i Hk) as (k & Hkey & Hk').
  rewrite (run_opened i w k a Hkey Hk' Hs Hc).
  cbn [snd render entered screen]. by rewrite <- app_assoc.
Qed.

(** X9. The screen of an execution that handles a submission is, in order:
    the header, the stored transcript message by message, the input box,
    the user's message, the assistant's container with its spinner, and the
    answer as text or the error notice. *)
Theorem screen_of_submission i w k a p :
  openai_api_key i = Some k -> truthy (Some k) = true ->
  (setup_agent (libs i) w).1 = Returns a ->
  chat_input i = Some p -> truthy (Some p) = true ->
  screen (run i w).2 =
    header ++ flat_map show (messages w)
    ++ [ChatInput "Ask me anything..."; ChatMessage user; Markdown p;
        ChatMessage assistant; Spinner "Thinking..."]
    ++ shown (invoke i a p).
Proof. apply run_screen_submission. Qed.

Lemma screen_of_submission_witness :
  screen (run (ask "2+2" (failing "timeout")) fresh).2 =
    header ++ flat_map show (messages fresh)
    ++ [ChatInput "Ask me anything..."; ChatMessage user; Markdown "2+2";
        ChatMessage assistant; Spinner "Thinking..."]
    ++ shown (failing "timeout" the_executor "2+2").
Proof.
  apply (screen_of_submission (ask "2+2" (failing "timeout")) fresh
           "sk-test" the_executor "2+2"); reflexivity.
Defined.

(** X10. An execution without a submission draws the header, then the whole
    stored transcript in order, each message in the container of its role,
    then the input box, and nothing else. *)
Theorem screen_replays_transcript i w a :
  truthy (openai_api_key i) = true ->
  (setup_agent (libs i) w).1 = Returns a ->
  truthy (chat_input i) = false ->
  screen (run i w).2 =
    header ++ flat_map show (messages w) ++ [ChatInput "Ask me anything..."].
Proof. apply run_screen_idle. Qed.

Lemma screen_replays_transcript_witness :
  screen (run idle (session two_submissions fresh)).2 =
    header ++ flat_map show (messages (session two_submissions fresh))
    ++ [ChatInput "Ask me anything..."].
Proof.
  apply (screen_replays_transcript idle (session two_submissions fresh) the_executor);
    vm_compute; reflexivity.
Defined.

(** X11. What an exchange looked like is not what its replay looks like when
    the executor raised: the execution that handles the submission shows
    the error as an error notice, the executions after it show the stored
    error text as ordinary text in an assistant container. *)
Theorem error_is_replayed_as_text i j w k a p e :
  openai_api_key i = Some k -> truthy (Some k) = true ->
  (setup_agent (libs i) w).1 = Returns a ->
  chat_input i = Some p -> truthy (Some p) = true ->
  invoke i a p = Raises e ->
  truthy (openai_api_key j) = true -> truthy (chat_input j) = false ->
  screen (run i w).2 =
    header ++ flat_map show (messages w)
    ++ [ChatInput "Ask me anything..."; ChatMessage user; Markdown p;
        ChatMessage assistant; Spinner "Thinking..."; Error (error_text e)] /\
  screen (run j (run i w).2).2 =
    header ++ flat_map show (messages w)
    ++ [ChatMessage user; Markdown p;
        ChatMessage assistant; Markdown (error_text e);
        ChatInput "Ask me anything..."].
Proof.
  intros Hkey Hk Hs Hi Hc He Hkj Hcj. split.
  - rewrite (run_screen_submission i w k a p Hkey Hk Hs Hi Hc), He. exact eq_refl.
  - assert (truthy (openai_api_key i) = true) as Hki by by rewrite Hkey.
    destruct (run_submit i w a p Hki Hs Hi Hc) as (_ & Hm & Hcache & _).
    rewrite He in Hm.
    assert ((setup_agent (libs j) (run i w).2).1 = Returns a) as Hsj.
    { unfold setup_agent. by rewrite Hcache. }
    rewrite (run_screen_idle j _ a Hkj Hsj Hcj).
    unfold messages at 1. rewrite Hm. cbn [default from_option id reply].
    rewrite flat_map_app. cbn [flat_map show msg_role msg_content app].
    by rewrite <- !app_assoc.
Qed.

Lemma error_is_replayed_as_text_witness :
  screen (run (ask "2+2" (failing "timeout")) fresh).2 =
    header ++ flat_map show (messages fresh)
    ++ [ChatInput "Ask me anything..."; ChatMessage user; Markdown "2+2";
        ChatMessage assistant; Spinner "Thinking..."; Error (error_text "timeout")] /\
  screen (run idle (run (ask "2+2" (failing "timeout")) fresh).2).2 =
    header ++ flat_map show (messages fresh)
    ++ [ChatMessage user; Markdown "2+2";
        ChatMessage assistant; Markdown (error_text "timeout");
        ChatInput "Ask me anything..."].
Proof.
  apply (error_is_replayed_as_text (ask "2+2" (failing "timeout")) idle fresh
           "sk-test" the_executor "2+2" "timeout"); reflexivity.
Defined.

(** ** Executing again *)

Lemma booted_again k es w : booted k (render es (booted k w)) = booted k w.
Proof.
  unfold booted, set_environ, render, clear_screen.
  cbn [session_messages resource_cache environ screen calls].
  by rewrite insert_insert_eq.
Qed.

Lemma booted_twice k w : booted k (booted k w) = booted k w.
Proof.
  unfold booted, set_environ, render, clear_screen.
  cbn [session_messages resource_cache environ screen calls].
  by rewrite insert_insert_eq.
Qed.

Lemma entered_again k a es w : entered k a (render es (entered k a w)) = entered k a w.
Proof.
  unfold entered, render, messages.
  cbn [session_messages resource_cache environ screen calls default from_option id].
  by rewrite insert_insert_eq, app_nil_r.
Qed.

Lemma run_idle_again i w :
  truthy (chat_input i) = false -> run i (run i w).2 = run i w.
Proof.
  intros Hc. destruct (truthy (openai_api_key i)) eqn:Hk; cycle 1.
  { rewrite (run_no_key i w Hk), (run_no_key i _ Hk). exact eq_refl. }
  destruct (truthy_key i Hk) as (k & Hkey & Hk').
  destruct (setup_agent (libs i) w).1 as [a|e|] eqn:Hs.
  - rewrite (run_opened i w k a Hkey Hk' Hs Hc). cbn [snd].
    assert ((setup_agent (libs i)
               (render [ChatInput "Ask me anything..."] (entered k a w))).1
            = Returns a) as Hs' by exact eq_refl.
    rewrite (run_opened i _ k a Hkey Hk' Hs' Hc). by rewrite entered_again.
  - rewrite (run_setup_raises_exact i w k e Hkey Hk' Hs). cbn [snd].
    assert ((setup_agent (libs i) (render [Error (init_error_text e)] (booted k w))).1
            = Raises e) as Hs'.
    { rewrite <- Hs. by apply setup_agent_result. }
    rewrite (run_setup_raises_exact i _ k e Hkey Hk' Hs'). by rewrite booted_again.
  - rewrite (run_setup_exits_exact i w k Hkey Hk' Hs). cbn [snd].
    assert ((setup_agent (libs i) (booted k w)).1 = Exits) as Hs'.
    { rewrite <- Hs. by apply setup_agent_result. }
    rewrite (run_setup_exits_exact i _ k Hkey Hk' Hs'). by rewrite booted_twice.
Qed.

(** X12. Executing the script again without a submission changes nothing:
    the second execution ends where the first did, with the same stores and
    the same screen.  The key is set again to the same value, the executor
    is not rebuilt, the transcript is not reset. *)
Theorem rerun_without_submission_changes_nothing i w :
  truthy (chat_input i) = false -> run i (run i w).2 = run i w.
Proof. apply run_idle_again. Qed.

Lemma rerun_without_submission_changes_nothing_witness :
  run idle (run idle (session two_submissions fresh)).2
    = run idle (session two_submissions fresh).
Proof.
  apply (rerun_without_submission_changes_nothing idle (session two_submissions fresh)).
  reflexivity.
Defined.

(** X13. Entering another key, one the environment accepts, after the
    executor is stored changes the environment and nothing about the
    executor: the stored one stays, and
    the setup's body does not run again, so the executor in use is the one
    built under the earlier key. *)
Theorem new_key_keeps_stored_executor i w k a :
  resource_cache w = Some a ->
  openai_api_key i = Some k -> truthy (Some k) = true -> storable k = true ->
  environ (run i w).2 !! "OPENAI_API_KEY" = Some k /\
  resource_cache (run i w).2 = Some a /\
  constructions (calls (run i w).2) = constructions (calls w).
Proof.
  intros Hcache Hkey Hk _.
  assert ((setup_agent (libs i) w).1 = Returns a) as Hs.
  { unfold setup_agent. by rewrite Hcache. }
  rewrite (run_environ i w k Hkey Hk). split; [apply lookup_insert_eq|].
  rewrite (run_handler i w k a Hkey Hk Hs).
  destruct (truthy (chat_input i)) eqn:Hc.
  - destruct (truthy_Some _ Hc) as [p Hi]. rewrite Hi in Hc.
    rewrite (handler_exchange i a (entered k a w) (messages w) p eq_refl Hi Hc).
    cbn [snd exchanged entered resource_cache calls]. rewrite Hcache.
    split; [exact eq_refl|]. rewrite !constructions_app. cbn. lia.
  - rewrite (handler_idle i a _ Hc).
    cbn [snd render entered resource_cache calls]. rewrite Hcache.
    split; [exact eq_refl|]. rewrite !constructions_app. cbn. lia.
Qed.

Lemma new_key_keeps_stored_executor_witness :
  environ (run other_key (run idle fresh).2).2 !! "OPENAI_API_KEY" = Some "sk-other" /\
  resource_cache (run other_key (run idle fresh).2).2 = Some the_executor /\
  constructions (calls (run other_key (run idle fresh).2).2)
    = constructions (calls (run idle fresh).2).
Proof.
  apply (new_key_keeps_stored_executor other_key (run idle fresh).2 "sk-other" the_executor).
  - vm_compute. reflexivity.
  - reflexivity.
  - reflexivity.
  - reflexivity.
Defined.

(** ** Where the messages come from *)





